(** * Ticket triage: a shallow embedding of [triage.py] and [clean.py]

    The Python program reads ticket files, asks one of two model backends
    for a triage report and writes the augmented ticket to an output
    directory.  Everything the program does goes through the outside world:
    the environment, two inference services, an HTTP endpoint and the file
    system.  The embedding therefore threads an explicit [state] (file
    system, a clock counting service calls, a trace of effects) through a
    small state-and-exception monad, and takes the behaviour of the outside
    world as a [world] record of oracles.  Calls to [logging] are left out:
    they neither raise nor steer the control flow. *)

From Stdlib Require Import ZArith List Ascii String.
From stdpp Require Import gmap strings list fin_maps.

Local Open Scope Z_scope.
Local Open Scope string_scope.
Local Open Scope list_scope.
Local Open Scope stdpp_scope.

(** ** Python strings *)

Module PyStr.

(** Characters that a Rocq string literal cannot hold directly. *)
Definition nl : string := String (ascii_of_nat 10) "".
Definition dq : string := String (ascii_of_nat 34) "".

(** [s.endswith(suf)]: some tail of [s] is [suf]. *)
Fixpoint endswith (s suf : string) : bool :=
  if String.eqb s suf then true
  else match s with
       | EmptyString => false
       | String _ s' => endswith s' suf
       end.

(** [s.startswith(pre)]. *)
Definition startswith (s pre : string) : bool := String.prefix pre s.

(** [needle in hay] on strings: [needle] starts at some position. *)
Fixpoint contains (needle hay : string) : bool :=
  if String.prefix needle hay then true
  else match hay with
       | EmptyString => false
       | String _ hay' => contains needle hay'
       end.

Definition lower_ascii (c : ascii) : ascii :=
  let n := nat_of_ascii c in
  if (Nat.leb 65 n && Nat.leb n 90)%bool then ascii_of_nat (n + 32) else c.

(** [s.lower()] on the ASCII letters. *)
Fixpoint lower (s : string) : string :=
  match s with
  | EmptyString => EmptyString
  | String c s' => String (lower_ascii c) (lower s')
  end.

(** Python truthiness of [Optional[str]]: [None] and [''] are falsy. *)
Definition truthy (o : option string) : bool :=
  match o with
  | Some (String _ _) => true
  | _ => false
  end.

End PyStr.

(** ** Exceptions

    [exn] stands for an instance of Python's [Exception], the class that
    every handler of the program names, directly or through a subclass
    ([KeyboardInterrupt] and [SystemExit] are not failures of a call and
    are left out).  [exn_str e] is [str(e)], which is what an f-string
    interpolates. *)

Inductive exn_class : Type :=
  | ValueError
  | UnicodeDecodeError
  | JSONDecodeError
  | RequestException     (* requests.exceptions.RequestException and subclasses *)
  | ZeroDivisionError
  | OverflowError
  | TypeError
  | AttributeError
  | KeyError
  | FileNotFoundError
  | IsADirectoryError
  | OtherError (name : string).

Record exn : Type := Exn { exn_cls : exn_class; exn_str : string }.

Definition is_RequestException (e : exn) : bool :=
  match exn_cls e with
  | RequestException => true
  | _ => false
  end.

Inductive result (A : Type) : Type :=
  | Ok (a : A)
  | Raise (e : exn).
Arguments Ok {A} a.
Arguments Raise {A} e.

(** ** JSON values as [json.loads] builds them, with the dynamic checks of
    the operations the program applies to them.  Numbers are the integers
    the pull endpoint reports (byte counts). *)

#[warnings="-register-all"]
Inductive json : Type :=
  | JNull
  | JBool (b : bool)
  | JNum (z : Z)
  | JStr (s : string)
  | JArr (items : list json)
  | JObj (items : list (string * json)).

Module Py.

(** [type(v).__name__] *)
Definition type_name (v : json) : string :=
  match v with
  | JNull => "NoneType"
  | JBool _ => "bool"
  | JNum _ => "int"
  | JStr _ => "str"
  | JArr _ => "list"
  | JObj _ => "dict"
  end.

Definition quoted (s : string) : string := "'" +:+ s +:+ "'".

(** [key in v] for a string [key]. *)
Definition contains (key : string) (v : json) : result bool :=
  match v with
  | JObj kvs => Ok (existsb (fun kv => String.eqb (fst kv) key) kvs)
  | JArr xs =>
      Ok (existsb (fun x => match x with
                            | JStr s => String.eqb s key
                            | _ => false
                            end) xs)
  | JStr s => Ok (PyStr.contains key s)
  | _ => Raise (Exn TypeError
                  ("argument of type " +:+ quoted (type_name v) +:+ " is not iterable"))
  end.

Fixpoint assoc (key : string) (kvs : list (string * json)) : option json :=
  match kvs with
  | [] => None
  | (k, x) :: kvs' => if String.eqb k key then Some x else assoc key kvs'
  end.

(** [v[key]] for a string [key]. *)
Definition getitem (v : json) (key : string) : result json :=
  match v with
  | JObj kvs =>
      match assoc key kvs with
      | Some x => Ok x
      | None => Raise (Exn KeyError (quoted key))
      end
  | JArr _ => Raise (Exn TypeError "list indices must be integers or slices, not str")
  | JStr _ => Raise (Exn TypeError "string indices must be integers, not 'str'")
  | _ => Raise (Exn TypeError (quoted (type_name v) +:+ " object is not subscriptable"))
  end.

(** [v.lower()]: only strings have the method. *)
Definition lower (v : json) : result string :=
  match v with
  | JStr s => Ok (PyStr.lower s)
  | _ => Raise (Exn AttributeError
                  (quoted (type_name v) +:+ " object has no attribute 'lower'"))
  end.

(** Python numbers among the JSON values: [bool] is a subclass of [int]. *)
Definition as_int (v : json) : option Z :=
  match v with
  | JNum z => Some z
  | JBool b => Some (if b then 1 else 0)
  | _ => None
  end.

(** The largest quotient magnitude that still rounds to a finite double. *)
Definition float_overflow (a b : Z) : bool :=
  ((2 ^ 1024 - 2 ^ 970) * Z.abs b <=? Z.abs a)%Z.

(** [completed / total]: true division of two ints.  The quotient itself
    is a float that is only printed; what matters here is whether the
    division raises. *)
Definition true_divide (completed total : json) : result (Z * Z) :=
  match as_int completed, as_int total with
  | Some c, Some t =>
      if (t =? 0)%Z then Raise (Exn ZeroDivisionError "division by zero")
      else if float_overflow c t
           then Raise (Exn OverflowError "integer division result too large for a float")
           else Ok (c, t)
  | _, _ =>
      Raise (Exn TypeError
               ("unsupported operand type(s) for /: " +:+ quoted (type_name completed)
                +:+ " and " +:+ quoted (type_name total)))
  end.

End Py.

(** ** The outside world and the program state *)

(** An entry of a directory: a regular file holding UTF-8 text, given by the
    text that [open(..., encoding='utf-8')] reads from it and writes to it;
    a regular file whose bytes are not valid UTF-8, given by the message of
    the [UnicodeDecodeError] that reading it raises; or a subdirectory. *)
Inductive node : Type :=
  | File (content : string)
  | Binary (reason : string)
  | Subdir.

(** Effects the program has on the outside, oldest first. *)
Inductive event : Type :=
  | Listed                                  (* ollama.list() *)
  | Posted (url model_name : string)        (* requests.post(url, {"name": model_name}) *)
  | Chatted (model prompt : string)         (* ollama.chat(model, [user: prompt]) *)
  | Generated (model prompt : string)       (* generate_content(model, contents=prompt) *)
  | MadeDir (dir : string)                  (* os.makedirs(dir) *)
  | Stored (dir name : string)              (* open(dir/name, 'w').write(...) *)
  | Removed (dir name : string)             (* os.remove(dir/name) *)
  | Printed (msg : string)                  (* print(msg) *)
  | PrintedProgress (completed total : Z).  (* print of completed/total*100 *)

(** The working directory maps a directory name to that directory's
    entries; [clock] counts the calls made to the services so far. *)
Record state : Type := State {
  fs : gmap string (gmap string node);
  clock : nat;
  trace : list event
}.

(** One line of the streamed pull response, as the loop meets it. *)
Inductive line : Type :=
  | Blank                      (* b'': falsy *)
  | Undecodable (reason : string)
                               (* json.loads(line) raises UnicodeDecodeError:
                                  the bytes are not valid UTF-8 *)
  | Malformed (msg : string)   (* the bytes decode, but are not JSON:
                                  json.loads(line) raises JSONDecodeError(msg) *)
  | Parsed (v : json)          (* json.loads(line) returns v *)
  | Broken (e : exn).          (* iter_lines() itself raises e *)

Record response : Type := Response {
  status_code : Z;
  text : string;
  iter_lines : list line
}.

(** What lies outside the program.  Every service oracle sees the clock,
    so a service may answer the same request differently at different
    times.

    - [environ]: the process environment after [load_dotenv()].
    - [ollama_list k]: the outcome of [ollama.list()['models']]; a model
      descriptor is the dictionary that [model.get('name')] reads.
    - [requests_post k url model_name]: the outcome of
      [requests.post(url, data=json.dumps({"name": model_name}), ...)].
    - [ollama_chat k model prompt]: the outcome of
      [ollama.chat(model=model, messages=[...prompt...])['message']['content']].
    - [genai_Client k]: whether [genai.Client()] can be constructed.
    - [generate_content k model prompt]: the outcome of
      [client.models.generate_content(model=model, contents=prompt).text],
      an optional string.
    - [os_listdir d]: the order in which the entries of [d] are listed. *)
Record world : Type := World {
  environ : gmap string string;
  ollama_list : nat → result (list (gmap string string));
  requests_post : nat → string → string → result response;
  ollama_chat : nat → string → string → result string;
  genai_Client : nat → result unit;
  generate_content : nat → string → string → result (option string);
  os_listdir : gmap string node → list string
}.

(** [os.listdir] returns every entry name once, in no particular order. *)
Definition listdir_sound (w : world) (d : gmap string node) : Prop :=
  os_listdir w d ≡ₚ elements (dom d).

(** ** The monad: state passing with exceptions *)

Definition M (A : Type) : Type := state → result A * state.

Definition ret {A} (a : A) : M A := fun st => (Ok a, st).

Definition raise {A} (e : exn) : M A := fun st => (Raise e, st).

Definition bind {A B} (m : M A) (k : A → M B) : M B :=
  fun st =>
    match m st with
    | (Ok a, st') => k a st'
    | (Raise e, st') => (Raise e, st')
    end.

(** [try: m  except C as e: h e], where [catches] decides [isinstance(e, C)]. *)
Definition try_except {A} (m : M A) (catches : exn → bool) (h : exn → M A) : M A :=
  fun st =>
    match m st with
    | (Raise e, st') => if catches e then h e st' else (Raise e, st')
    | r => r
    end.

Definition lift {A} (r : result A) : M A := fun st => (r, st).

Definition get_state : M state := fun st => (Ok st, st).

Definition emit (ev : event) : M unit :=
  fun st => (Ok tt, State (fs st) (clock st) (trace st ++ [ev])).

Definition tick : M unit :=
  fun st => (Ok tt, State (fs st) (S (clock st)) (trace st)).

Definition put_fs (f : gmap string (gmap string node)) : M unit :=
  fun st => (Ok tt, State f (clock st) (trace st)).

Declare Scope py_scope.
Delimit Scope py_scope with py.
Notation "x <- m ;; k" := (bind m (fun x => k))
  (at level 100, m at next level, right associativity) : py_scope.
Notation "m ;; k" := (bind m (fun _ => k))
  (at level 100, right associativity) : py_scope.
Local Open Scope py_scope.

(** [for x in xs: body x] *)
Fixpoint for_ {A} (xs : list A) (body : A → M unit) : M unit :=
  match xs with
  | [] => ret tt
  | x :: xs' => body x ;; for_ xs' body
  end.

(** [for x in xs: body x] where the body may [return r] from the enclosing
    function ([Some r]) or fall through to the next iteration ([None]);
    [after] is the code that follows the loop. *)
Fixpoint for_return {A R} (xs : list A) (body : A → M (option R)) (after : M R) : M R :=
  match xs with
  | [] => after
  | x :: xs' =>
      r <- body x ;;
      match r with
      | Some v => ret v
      | None => for_return xs' body after
      end
  end.

Definition catch_all (e : exn) : bool := true.

(** ** The program *)

Inductive backend : Type := ollama | gemini.

Definition original_dir : string := "tickets-original".
Definition triaged_dir : string := "tickets-triaged".

Section Program.

Variable w : world.

Import PyStr.

Definition os_getenv (name : string) : option string := environ w !! name.

(** *** Ollama model management *)

(** The body of the loop over [response.iter_lines()]: [Some b] is
    [return b], [None] falls through to the next line. *)
Definition handle_line (model_name : string) (l : line) : M (option bool) :=
  match l with
  | Broken e => raise e
  | Blank => ret None
  | Undecodable reason => raise (Exn UnicodeDecodeError reason)
  | Malformed msg => raise (Exn JSONDecodeError msg)
  | Parsed json_response =>
      has_status <- lift (Py.contains "status" json_response) ;;
      finished <-
        (if has_status : bool then
           status <- lift (Py.getitem json_response "status") ;;
           lowered <- lift (Py.lower status) ;;
           ret (contains "success" lowered || contains "finished" lowered)
         else ret false) ;;
      if finished : bool then ret (Some true)
      else
        has_total <- lift (Py.contains "total" json_response) ;;
        has_completed <-
          (if has_total : bool then lift (Py.contains "completed" json_response)
           else ret false) ;;
        if has_completed : bool then
          completed <- lift (Py.getitem json_response "completed") ;;
          total <- lift (Py.getitem json_response "total") ;;
          percent <- lift (Py.true_divide completed total) ;;
          emit (PrintedProgress (fst percent) (snd percent)) ;;
          ret None
        else ret None
  end.

Definition pull_model_with_progress (model_name : string) : M bool :=
  let url := "http://localhost:11434/api/pull" in
  try_except
    (st <- get_state ;;
     emit (Posted url model_name) ;;
     tick ;;
     response <- lift (requests_post w (clock st) url model_name) ;;
     if negb (status_code response =? 200)%Z then ret false
     else
       for_return (iter_lines response) (handle_line model_name)
         (emit (Printed (nl +:+ "Pull process completed.")) ;;
          ret true))
    is_RequestException
    (fun e => ret false).

Definition ensure_ollama_model_available (model_name : string) : M unit :=
  try_except
    (st <- get_state ;;
     emit Listed ;;
     tick ;;
     local_models <- lift (ollama_list w (clock st)) ;;
     if negb (existsb (fun model : gmap string string =>
                         bool_decide (model !! "name" = Some model_name))
                      local_models)
     then
       pull_model_with_progress model_name ;;
       ret tt
     else ret tt)
    catch_all
    (fun e => raise e).

(** *** Ticket triage functions *)

Definition ollama_prompt (ticket_content : string) : string :=
  nl +:+
  "    You are an expert IT support ticket triaging system. Your task is to analyze the following IT ticket and provide a structured triage report." +:+ nl +:+
  nl +:+
  "    The triage report must include the following sections:" +:+ nl +:+
  "    - **Urgency**: (e.g., Low, Medium, High, Critical)" +:+ nl +:+
  "    - **Category**: (e.g., Hardware, Software, Network, Account, Other)" +:+ nl +:+
  "    - **Summary**: A brief, one-sentence summary of the issue." +:+ nl +:+
  "    - **Next Step**: Propose a concrete next action. This should be a numbered list of 1-3 clear, actionable steps." +:+ nl +:+
  "    - **New Status**: Based on the " +:+ dq +:+ "Next Step" +:+ dq +:+ ", set the status to one of the following: " +:+ dq +:+ "unclear" +:+ dq +:+ " (if more information is needed), " +:+ dq +:+ "pending next step" +:+ dq +:+ " (if the user needs to do something), or " +:+ dq +:+ "closed" +:+ dq +:+ " (if no action is required)." +:+ nl +:+
  nl +:+
  "    Here is the ticket:" +:+ nl +:+
  "    ---" +:+ nl +:+
  "    " +:+ ticket_content +:+ nl +:+
  "    ---" +:+ nl +:+
  nl +:+
  "    Please provide the triage report in markdown format." +:+ nl +:+
  "    ".

Definition gemini_prompt (ticket_content : string) : string :=
  nl +:+
  "    You are an expert IT support ticket triaging system. Your task is to analyze the following IT ticket and provide a structured triage report." +:+ nl +:+
  nl +:+
  "    The triage report must include the following sections:" +:+ nl +:+
  "    - **Urgency**: (e.g., Low, Medium, High, Critical)" +:+ nl +:+
  "    - **Category**: (e.g., Hardware, Software, Network, Account, Other)" +:+ nl +:+
  "    - **Summary**: A brief, one-sentence summary of the issue." +:+ nl +:+
  "    - **Next Step**: Propose a concrete next action. This should be a numbered list of 1-3 clear, actionable steps." +:+ nl +:+
  "    - **New Status**: Based on the " +:+ dq +:+ "Next Step" +:+ dq +:+ ", set the status to one of the following: " +:+ dq +:+ "unclear" +:+ dq +:+ " (if more information is needed), " +:+ dq +:+ "pending next step" +:+ dq +:+ " (if the user needs to do something), or " +:+ dq +:+ "closed" +:+ dq +:+ " (if no action is required)." +:+ nl +:+
  nl +:+
  "    Here is the ticket:" +:+ nl +:+
  "    ---" +:+ nl +:+
  "    " +:+ ticket_content +:+ nl +:+
  "    ---" +:+ nl +:+
  nl +:+
  "    Please provide the triage report in markdown format." +:+ nl +:+
  "    ".

Definition triage_ticket_ollama (ticket_content : string) : M string :=
  let ollama_model := os_getenv "OLLAMA_MODEL" in
  if negb (truthy ollama_model) then
    raise (Exn ValueError "OLLAMA_MODEL environment variable not set.")
  else
    let prompt := ollama_prompt ticket_content in
    try_except
      (st <- get_state ;;
       emit (Chatted (default "" ollama_model) prompt) ;;
       tick ;;
       lift (ollama_chat w (clock st) (default "" ollama_model) prompt))
      catch_all
      (fun e => ret ("Error during Ollama triage: " +:+ exn_str e)).

Definition triage_ticket_gemini (ticket_content : string) : M string :=
  let prompt := gemini_prompt ticket_content in
  try_except
    (st <- get_state ;;
     lift (genai_Client w (clock st)) ;;
     emit (Generated "gemini-2.5-flash" prompt) ;;
     tick ;;
     response_text <- lift (generate_content w (clock st) "gemini-2.5-flash" prompt) ;;
     ret (if truthy response_text then default "" response_text
          else "Error: Empty response from Gemini."))
    catch_all
    (fun e => ret ("Error during Gemini triage: " +:+ exn_str e)).

(** *** File access.  A path is [os.path.join(dir, name)] with [name] an
    entry name of [dir]; it is kept as the pair.  Both [open] calls of the
    program pass [encoding='utf-8'].  Reading decodes, and fails on a file
    that is not UTF-8; a text of this model is one that UTF-8 encodes, so
    writing does not fail on encoding.  Permissions and device errors are
    not modelled: a regular file can be opened, and a file can be created
    in a directory that exists. *)

(** [str(e)] of the [OSError]s the file operations raise. *)
Definition no_such_file (path : string) : exn :=
  Exn FileNotFoundError ("[Errno 2] No such file or directory: '" +:+ path +:+ "'").

Definition is_a_directory (path : string) : exn :=
  Exn IsADirectoryError ("[Errno 21] Is a directory: '" +:+ path +:+ "'").

Definition listdir (dir : string) : M (list string) :=
  st <- get_state ;;
  match fs st !! dir with
  | None => raise (no_such_file dir)
  | Some d => ret (os_listdir w d)
  end.

Definition read_text (dir name : string) : M string :=
  st <- get_state ;;
  match fs st !! dir with
  | None => raise (no_such_file (dir +:+ "/" +:+ name))
  | Some d =>
      match d !! name with
      | Some (File content) => ret content
      | Some (Binary reason) => raise (Exn UnicodeDecodeError reason)
      | Some Subdir => raise (is_a_directory (dir +:+ "/" +:+ name))
      | None => raise (no_such_file (dir +:+ "/" +:+ name))
      end
  end.

Definition write_text (dir name content : string) : M unit :=
  st <- get_state ;;
  match fs st !! dir with
  | None => raise (no_such_file (dir +:+ "/" +:+ name))
  | Some d =>
      match d !! name with
      | Some Subdir => raise (is_a_directory (dir +:+ "/" +:+ name))
      | _ =>
          put_fs (<[dir := <[name := File content]> d]> (fs st)) ;;
          emit (Stored dir name)
      end
  end.

Definition os_remove (dir name : string) : M unit :=
  st <- get_state ;;
  match fs st !! dir with
  | None => raise (no_such_file (dir +:+ "/" +:+ name))
  | Some d =>
      match d !! name with
      | Some (File _) | Some (Binary _) =>
          put_fs (<[dir := delete name d]> (fs st)) ;;
          emit (Removed dir name)
      | Some Subdir => raise (is_a_directory (dir +:+ "/" +:+ name))
      | None => raise (no_such_file (dir +:+ "/" +:+ name))
      end
  end.

(** [glob.glob(os.path.join(dir, '*'))]: the entries of [dir] whose name
    does not start with a dot; nothing when [dir] is missing. *)
Definition glob_star (dir : string) : M (list string) :=
  st <- get_state ;;
  match fs st !! dir with
  | None => ret []
  | Some d => ret (List.filter (fun name => negb (startswith name ".")) (os_listdir w d))
  end.

(** *** Main execution *)

Definition triage (model : backend) (ticket_content : string) : M string :=
  match model with
  | ollama => triage_ticket_ollama ticket_content
  | gemini => triage_ticket_gemini ticket_content
  end.

Definition status_block : string :=
  nl +:+ nl +:+ "---" +:+ nl +:+ nl +:+ "**Status:** new".

Definition triage_separator : string :=
  nl +:+ nl +:+ "---" +:+ nl +:+ nl +:+ "## Triage" +:+ nl +:+ nl.

(** The body of the loop over [os.listdir(original_dir)]. *)
Definition process_entry (model : backend) (filename : string) : M unit :=
  if endswith filename ".md" then
    original_content <- read_text original_dir filename ;;
    let ticket_with_status := original_content +:+ status_block in
    triage_report <- triage model original_content ;;
    let updated_content := ticket_with_status +:+ triage_separator +:+ triage_report in
    write_text triaged_dir filename updated_content
  else ret tt.

(** Lines 225-230: with the local backend, the model must be configured
    and available. *)
Definition check_backend (model : backend) : M unit :=
  match model with
  | ollama =>
      let ollama_model := os_getenv "OLLAMA_MODEL" in
      if negb (truthy ollama_model) then
        raise (Exn ValueError
                 "OLLAMA_MODEL environment variable not set for the ollama model.")
      else ensure_ollama_model_available (default "" ollama_model)
  | gemini => ret tt
  end.

(** Lines 236-238: create the output directory unless it exists. *)
Definition make_triaged_dir : M unit :=
  st <- get_state ;;
  if bool_decide (is_Some (fs st !! triaged_dir)) then ret tt
  else
    put_fs (<[triaged_dir := ∅]> (fs st)) ;;
    emit (MadeDir triaged_dir).

Definition prepare (model : backend) : M unit :=
  check_backend model ;;
  make_triaged_dir.

(** Lines 243-270: the batch loop. *)
Definition batch_loop (model : backend) : M unit :=
  filenames <- listdir original_dir ;;
  for_ filenames (process_entry model).

Definition main (model : backend) : M unit :=
  prepare model ;;
  batch_loop model.

(** *** [clean.py] *)

Definition clean_triaged_directory : M unit :=
  files <- glob_star triaged_dir ;;
  for_ files (os_remove triaged_dir) ;;
  emit (Printed "Cleaned the 'tickets-triaged' directory.").

End Program.

(** ** Vocabulary for the statements below *)

Definition pull_url : string := "http://localhost:11434/api/pull".

(** The state in which [requests.post] has just been issued. *)
Definition posted (model_name : string) (st : state) : state :=
  State (fs st) (S (clock st)) (trace st ++ [Posted pull_url model_name]).

(** The state in which [ollama.list()] has just been called. *)
Definition listed (st : state) : state :=
  State (fs st) (S (clock st)) (trace st ++ [Listed]).

(** [any(model.get('name') == model_name for model in models)] *)
Definition known_locally (model_name : string) (models : list (gmap string string)) : bool :=
  existsb (fun model : gmap string string =>
             bool_decide (model !! "name" = Some model_name)) models.

(** A line that the loop body consumes without returning and without
    raising, whatever the state. *)
Definition falls_through (model_name : string) (l : line) : Prop :=
  ∀ st, fst (handle_line model_name l st) = Ok None.

(** An event of the kind the pull endpoint streams: an object whose
    ["status"], when present, is a string that does not announce
    completion, and whose progress pair, when present, can be divided. *)
Definition progress_event (kvs : list (string * json)) : Prop :=
  match Py.assoc "status" kvs with
  | None => True
  | Some (JStr s) =>
      PyStr.contains "success" (PyStr.lower s)
      || PyStr.contains "finished" (PyStr.lower s) = false
  | Some _ => False
  end
  ∧ match Py.assoc "total" kvs, Py.assoc "completed" kvs with
    | Some total, Some completed => ∃ q, Py.true_divide completed total = Ok q
    | _, _ => True
    end.

(** The ways in which the pull step fails at the HTTP level or on the wire:
    a response other than 200, a [RequestException] from the request
    itself, a [RequestException] from the stream after lines that all fell
    through. *)
Inductive pull_failure (w : world) (model_name : string) (st : state) : Prop :=
  | bad_status (resp : response) :
      requests_post w (clock st) pull_url model_name = Ok resp →
      status_code resp ≠ 200%Z →
      pull_failure w model_name st
  | post_error (e : exn) :
      requests_post w (clock st) pull_url model_name = Raise e →
      is_RequestException e = true →
      pull_failure w model_name st
  | stream_error (resp : response) (pre post : list line) (e : exn) :
      requests_post w (clock st) pull_url model_name = Ok resp →
      status_code resp = 200%Z →
      iter_lines resp = pre ++ Broken e :: post →
      Forall (falls_through model_name) pre →
      is_RequestException e = true →
      pull_failure w model_name st.

Definition is_md (name : string) : bool := PyStr.endswith name ".md".

(** The ticket names among a listing. *)
Definition md_names (names : list string) : list string :=
  filter (fun name => is_md name = true) names.

Definition hidden (name : string) : bool := PyStr.startswith name ".".

Definition is_file (e : node) : bool :=
  match e with
  | File _ => true
  | Binary _ => true
  | Subdir => false
  end.

(** The files a run stored, in the order in which it stored them. *)
Definition stored (tr : list event) : list (string * string) :=
  omap (fun ev => match ev with
                  | Stored dir name => Some (dir, name)
                  | _ => None
                  end) tr.

(** The files a run removed. *)
Definition removed (tr : list event) : list (string * string) :=
  omap (fun ev => match ev with
                  | Removed dir name => Some (dir, name)
                  | _ => None
                  end) tr.

(** Code that leaves the file system alone: it only adds to the trace, and
    what it adds neither stores nor removes a file. *)
Definition quiet {A} (m : M A) : Prop :=
  ∀ st,
    fs (snd (m st)) = fs st
    ∧ ∃ evs, trace (snd (m st)) = trace st ++ evs
             ∧ stored evs = [] ∧ removed evs = [].

(** The selected backend can be called: the remote one always, the local
    one once its model is configured (which [main] checks before the loop). *)
Definition ready (w : world) (model : backend) : Prop :=
  model = gemini ∨ PyStr.truthy (os_getenv w "OLLAMA_MODEL") = true.

(** Every entry of the input directory named [*.md] is a regular file. *)
Definition md_entries_are_files (d : gmap string node) : Prop :=
  ∀ name, is_md name = true → d !! name ≠ Some Subdir.

(** No ticket name of the input directory is taken by a subdirectory of
    the output directory. *)
Definition outputs_writable (d t : gmap string node) : Prop :=
  ∀ name, is_md name = true → is_Some (d !! name) → t !! name ≠ Some Subdir.

(** The text written for a ticket with content [C] and report [r]. *)
Definition triaged_document (C r : string) : string :=
  (C +:+ status_block) +:+ triage_separator +:+ r.

(** The services answer a request the same way at all times. *)
Definition stationary_backends (w : world) : Prop :=
  ∀ k k',
    ollama_list w k = ollama_list w k'
    ∧ (∀ url model_name,
         requests_post w k url model_name = requests_post w k' url model_name)
    ∧ (∀ model prompt, ollama_chat w k model prompt = ollama_chat w k' model prompt)
    ∧ genai_Client w k = genai_Client w k'
    ∧ (∀ model prompt,
         generate_content w k model prompt = generate_content w k' model prompt).

(** Code whose outcome (the value returned or the exception raised) does
    not depend on the state it starts from. *)
Definition timeless {A} (m : M A) : Prop :=
  ∀ st st', fst (m st) = fst (m st').

(** ** Concrete worlds and states, for the examples *)

Module Examples.

Definition generic_error (msg : string) : exn := Exn (OtherError "Exception") msg.

(** Both services up, the local model present, every report the same. *)
Definition steady : world := {|
  environ := {[ "OLLAMA_MODEL" := "gemma3:12b" ]};
  ollama_list := fun _ => Ok [ {[ "name" := "gemma3:12b" ]} ];
  requests_post := fun _ _ _ => Raise (Exn RequestException "connection refused");
  ollama_chat := fun _ _ _ => Ok "Urgency: High";
  genai_Client := fun _ => Ok tt;
  generate_content := fun _ _ _ => Ok (Some "Urgency: High");
  os_listdir := fun d => elements (dom d)
|}.

(** Both services down, as in the API-error tests. *)
Definition down : world := {|
  environ := {[ "OLLAMA_MODEL" := "test-ollama-model" ]};
  ollama_list := fun _ => Raise (generic_error "connection refused");
  requests_post := fun _ _ _ => Raise (Exn RequestException "connection refused");
  ollama_chat := fun _ _ _ => Raise (generic_error "Ollama API is down");
  genai_Client := fun _ => Raise (generic_error "Gemini API is down");
  generate_content := fun _ _ _ => Ok None;
  os_listdir := fun d => elements (dom d)
|}.

(** The local service is down, the remote one answers. *)
Definition local_down : world := {|
  environ := {[ "OLLAMA_MODEL" := "gemma3:12b" ]};
  ollama_list := fun _ => Ok [ {[ "name" := "gemma3:12b" ]} ];
  requests_post := fun _ _ _ => Raise (Exn RequestException "connection refused");
  ollama_chat := fun _ _ _ => Raise (generic_error "Ollama API is down");
  genai_Client := fun _ => Ok tt;
  generate_content := fun _ _ _ => Ok (Some "Urgency: High");
  os_listdir := fun d => elements (dom d)
|}.

(** No [OLLAMA_MODEL] in the environment and the local service answers;
    the remote client is built, and its request fails. *)
Definition remote_down : world := {|
  environ := ∅;
  ollama_list := fun _ => Ok [];
  requests_post := fun _ _ _ => Raise (Exn RequestException "connection refused");
  ollama_chat := fun _ _ _ => Ok "Urgency: High";
  genai_Client := fun _ => Ok tt;
  generate_content := fun _ _ _ => Raise (generic_error "quota exceeded");
  os_listdir := fun d => elements (dom d)
|}.

(** No [OLLAMA_MODEL] in the environment; the remote service answers with
    an empty text. *)
Definition unconfigured : world := {|
  environ := ∅;
  ollama_list := fun _ => Ok [];
  requests_post := fun _ _ _ => Raise (Exn RequestException "connection refused");
  ollama_chat := fun _ _ _ => Ok "Urgency: High";
  genai_Client := fun _ => Ok tt;
  generate_content := fun _ _ _ => Ok (Some "");
  os_listdir := fun d => elements (dom d)
|}.

(** The local service has no model yet and the pull endpoint answers with
    the given response. *)
Definition pulling (resp : response) : world := {|
  environ := {[ "OLLAMA_MODEL" := "gemma3:12b" ]};
  ollama_list := fun _ => Ok [];
  requests_post := fun _ _ _ => Ok resp;
  ollama_chat := fun _ _ _ => Ok "Urgency: High";
  genai_Client := fun _ => Ok tt;
  generate_content := fun _ _ _ => Ok (Some "Urgency: High");
  os_listdir := fun d => elements (dom d)
|}.

(** A pull that reports progress and then ends without a closing event. *)
Definition progress_only : response := {|
  status_code := 200;
  text := "";
  iter_lines :=
    [ Parsed (JObj [("status", JStr "pulling manifest")]);
      Blank;
      Parsed (JObj [("status", JStr "downloading");
                    ("total", JNum 100); ("completed", JNum 50)]) ]
|}.

(** A pull whose only line is not JSON. *)
Definition garbled : response := {|
  status_code := 200;
  text := "";
  iter_lines := [ Malformed "Expecting value: line 1 column 1 (char 0)" ]
|}.

(** A pull whose connection breaks after the first event. *)
Definition interrupted : response := {|
  status_code := 200;
  text := "";
  iter_lines :=
    [ Parsed (JObj [("status", JStr "pulling manifest")]);
      Broken (Exn RequestException "connection reset");
      Parsed (JObj [("status", JStr "success")]) ]
|}.

(** A pull refused by the server. *)
Definition refused : response := {|
  status_code := 500;
  text := "internal error";
  iter_lines := []
|}.

(** The local service words its report differently on every other call. *)
Definition moody : world := {|
  environ := {[ "OLLAMA_MODEL" := "gemma3:12b" ]};
  ollama_list := fun _ => Ok [ {[ "name" := "gemma3:12b" ]} ];
  requests_post := fun _ _ _ => Raise (Exn RequestException "connection refused");
  ollama_chat := fun k _ _ => Ok (if Nat.even k then "Urgency: Low" else "Urgency: High");
  genai_Client := fun _ => Ok tt;
  generate_content := fun _ _ _ => Ok (Some "Urgency: High");
  os_listdir := fun d => elements (dom d)
|}.

Definition empty_state : state := State ∅ 0 [].

(** Two tickets and a stray text file. *)
Definition tickets : gmap string node :=
  {[ "printer.md" := File "My printer is on fire.";
     "vpn.md" := File "VPN drops every hour.";
     "notes.txt" := File "not a ticket" ]}.

(** An older version of one ticket and an unrelated file. *)
Definition old_outputs : gmap string node :=
  {[ "printer.md" := File "stale"; "old.md" := File "kept" ]}.

(** The tickets wait in the input directory; there is no output directory. *)
Definition inbox : state :=
  State {[ "tickets-original" := tickets ]} 0 [].

(** As [inbox], with the output directory already there. *)
Definition inbox_with_outputs : state :=
  State {[ "tickets-original" := tickets; "tickets-triaged" := old_outputs ]} 0 [].

(** An output directory holding a triaged ticket whose name starts with a
    dot, next to an ordinary one. *)
Definition dotted_outputs : state :=
  State {[ "tickets-triaged" :=
             {[ "printer.md" := File "triaged";
                ".draft.md" := File "triaged too" ]};
           "tickets-original" :=
             {[ "printer.md" := File "My printer is on fire." ]} ]}
        0 [].

End Examples.


(** ** Further vocabulary: effects and entries *)

(** The entry [dir/name] of a file system, if there is one. *)
Definition entry (f : gmap string (gmap string node)) (dir name : string) : option node :=
  f !! dir ≫= (.!! name).

(** Every event that a piece of code adds to the trace satisfies [P]. *)
Definition emits_only {A} (P : event → Prop) (m : M A) : Prop :=
  ∀ st, ∃ evs, trace (snd (m st)) = trace st ++ evs ∧ Forall P evs.

(** What a run with the remote backend may do: create the output
    directory, ask the fixed model, store a ticket under the output
    directory. *)
Definition gemini_event (ev : event) : Prop :=
  match ev with
  | MadeDir dir => dir = triaged_dir
  | Generated model _ => model = "gemini-2.5-flash"
  | Stored dir name => dir = triaged_dir ∧ is_md name = true
  | Listed | Posted _ _ | Chatted _ _ | Removed _ _ | Printed _
  | PrintedProgress _ _ => False
  end.

(** What a run with the local backend may do, [model_name] being the
    configured model: list the local models, pull that model, print pull
    progress, create the output directory, chat with that model, store a
    ticket under the output directory. *)
Definition ollama_event (model_name : string) (ev : event) : Prop :=
  match ev with
  | Listed => True
  | MadeDir dir => dir = triaged_dir
  | Posted url m => url = pull_url ∧ m = model_name
  | Chatted m _ => m = model_name
  | Stored dir name => dir = triaged_dir ∧ is_md name = true
  | Printed msg => msg = PyStr.nl +:+ "Pull process completed."
  | PrintedProgress _ _ => True
  | Generated _ _ | Removed _ _ => False
  end.

(** What the cleanup may do: remove an undotted entry of the output
    directory, print its confirmation. *)
Definition clean_event (ev : event) : Prop :=
  match ev with
  | Removed dir name => dir = triaged_dir ∧ hidden name = false
  | Printed msg => msg = "Cleaned the 'tickets-triaged' directory."
  | _ => False
  end.

(** The requests a run sent to the selected inference service. *)
Definition inference_calls (tr : list event) : list event :=
  omap (fun ev => match ev with
                  | Chatted _ _ | Generated _ _ => Some ev
                  | _ => None
                  end) tr.

(** The request that triaging a ticket with content [C] sends. *)
Definition inference_call (w : world) (model : backend) (C : string) : event :=
  match model with
  | ollama => Chatted (default "" (os_getenv w "OLLAMA_MODEL")) (ollama_prompt C)
  | gemini => Generated "gemini-2.5-flash" (gemini_prompt C)
  end.

(** The same world with another listing order. *)
Definition with_listing (w : world) (order : gmap string node → list string) : world :=
  World (environ w) (ollama_list w) (requests_post w) (ollama_chat w)
        (genai_Client w) (generate_content w) order.

(** The lines of a stream, split at the first one the loop body does not
    let through. *)
Definition decided_at (model_name : string) (lines pre : list line) (l : line)
    (post : list line) : Prop :=
  lines = pre ++ l :: post
  ∧ Forall (falls_through model_name) pre.

(** Code that changes no entry of the file system outside [S]. *)
Definition touches_only {A} (S : string → string → Prop) (m : M A) : Prop :=
  ∀ st dir name,
    ¬ S dir name →
    entry (fs (snd (m st))) dir name = entry (fs st) dir name.

(** What a file system [f'] may differ in from [f] when only the output
    directory was worked on and, in it, only names in [S]: every other
    directory is the same map, the output directory is not lost, and its
    entries outside [S] are the same. *)
Definition output_changes_only (S : string → Prop)
    (f f' : gmap string (gmap string node)) : Prop :=
  (∀ dir, dir ≠ triaged_dir → f' !! dir = f !! dir)
  ∧ (is_Some (f !! triaged_dir) → is_Some (f' !! triaged_dir))
  ∧ (∀ name, ¬ S name → entry f' triaged_dir name = entry f triaged_dir name).

(** Code whose effect on the file system is confined in that way. *)
Definition confined {A} (S : string → Prop) (m : M A) : Prop :=
  ∀ st, output_changes_only S (fs st) (fs (snd (m st))).

(** The entries a cleanup may change: undotted entries of the output
    directory. *)
Definition cleanable (dir name : string) : Prop :=
  dir = triaged_dir ∧ hidden name = false.

(** What a pull may emit before it is over. *)
Definition pull_progress (ev : event) : Prop :=
  match ev with
  | Posted _ _ | PrintedProgress _ _ => True
  | _ => False
  end.

(** The report for a ticket with content [C] when it is asked for at the
    start of time; with services that answer the same at all times, the
    report at any time. *)
Definition report_of (w : world) (model : backend) (C : string) : string :=
  match fst (triage w model C (State ∅ 0 [])) with
  | Ok r => r
  | Raise _ => ""
  end.

(** What the output directory [t] holds under [name] once the tickets of
    [d] are triaged with such services. *)
Definition triaged_entry (w : world) (model : backend) (d t : gmap string node)
    (name : string) : option node :=
  match d !! name with
  | Some (File C) =>
      if is_md name then Some (File (triaged_document C (report_of w model C)))
      else t !! name
  | _ => t !! name
  end.

(** Every entry of the input directory named [*.md] is a regular file that
    holds UTF-8 text. *)
Definition md_entries_readable (d : gmap string node) : Prop :=
  ∀ name e, is_md name = true → d !! name = Some e → ∃ C, e = File C.

(** A regular file that holds UTF-8 text. *)
Definition is_text (e : node) : bool :=
  match e with
  | File _ => true
  | Binary _ | Subdir => false
  end.

(** Every exception that a piece of code lets out satisfies [Q]. *)
Definition raises_only {A} (Q : exn → Prop) (m : M A) : Prop :=
  ∀ st e, fst (m st) = Raise e → Q e.

(** Every value that a piece of code returns satisfies [R]. *)
Definition returns_only {A} (R : A → Prop) (m : M A) : Prop :=
  ∀ st a, fst (m st) = Ok a → R a.

Definition not_RequestException (e : exn) : Prop := is_RequestException e = false.

(** The contents of the tickets among [names], in that order. *)
Definition ticket_texts (d : gmap string node) (names : list string) : list string :=
  omap (fun name => match d !! name with
                    | Some (File C) => Some C
                    | _ => None
                    end) (md_names names).

(** The remote client can be constructed at all times. *)
Definition client_available (w : world) (model : backend) : Prop :=
  model = gemini → ∀ k, genai_Client w k = Ok tt.

(** A status value that does not announce completion: none, or a string
    without either keyword. *)
Definition quiet_status (kvs : list (string * json)) : Prop :=
  match Py.assoc "status" kvs with
  | None => True
  | Some (JStr s) =>
      PyStr.contains "success" (PyStr.lower s)
      || PyStr.contains "finished" (PyStr.lower s) = false
  | Some _ => False
  end.

(** Lines on which the loop body raises, with the exception it raises: a
    line whose bytes are not valid UTF-8; a line that is not JSON; an event
    whose status is not a string; an event that reports a total of zero. *)
Inductive bad_line : line → exn → Prop :=
  | bad_bytes (reason : string) :
      bad_line (Undecodable reason) (Exn UnicodeDecodeError reason)
  | bad_json (msg : string) :
      bad_line (Malformed msg) (Exn JSONDecodeError msg)
  | bad_status_type (kvs : list (string * json)) (v : json) :
      Py.assoc "status" kvs = Some v →
      (∀ s, v ≠ JStr s) →
      bad_line (Parsed (JObj kvs))
        (Exn AttributeError
           (Py.quoted (Py.type_name v) +:+ " object has no attribute 'lower'"))
  | bad_total (kvs : list (string * json)) (total completed : json) (c : Z) :
      quiet_status kvs →
      Py.assoc "total" kvs = Some total →
      Py.assoc "completed" kvs = Some completed →
      Py.as_int total = Some 0%Z →
      Py.as_int completed = Some c →
      bad_line (Parsed (JObj kvs)) (Exn ZeroDivisionError "division by zero").

(** ** Further concrete worlds and states *)

Module Cases.

(** An input directory in which a subdirectory carries a ticket's name. *)
Definition mixed_tickets : gmap string node :=
  {[ "a.md" := File "Mouse is dead.";
     "archive.md" := Subdir;
     "z.md" := File "Zoom crashes." ]}.

(** As [Examples.steady], listing [mixed_tickets] in alphabetical order. *)
Definition alphabetical : world :=
  with_listing Examples.steady (fun _ => ["a.md"; "archive.md"; "z.md"]).

Definition mixed_inbox : state :=
  State {[ "tickets-original" := mixed_tickets; "tickets-triaged" := ∅ ]} 0 [].

(** An input directory without tickets. *)
Definition no_tickets : state :=
  State {[ "tickets-original" :=
             {[ "notes.txt" := File "not a ticket"; "README" := File "read me" ]} ]}
        0 [].

End Cases.

(** What the check of the local backend may emit. *)
Definition check_event (ev : event) : Prop :=
  match ev with
  | Listed | Posted _ _ | Printed _ | PrintedProgress _ _ => True
  | _ => False
  end.

(** ** Basic facts about the string operations *)

Lemma prefix_refl (s : string) : String.prefix s s = true.
Proof.
  induction s as [|c s IH]; simpl; [reflexivity|].
  destruct (Ascii.ascii_dec c c); [exact IH | congruence].
Qed.

Lemma prefix_app (s t : string) : String.prefix s (s +:+ t) = true.
Proof.
  induction s as [|c s IH]; simpl; [destruct t; reflexivity|].
  destruct (Ascii.ascii_dec c c); [exact IH | congruence].
Qed.

Lemma contains_of_prefix (s t : string) :
  String.prefix s t = true → PyStr.contains s t = true.
Proof. destruct t; simpl; intros ->; reflexivity. Qed.

Lemma contains_prefix (s t : string) : PyStr.contains s (s +:+ t) = true.
Proof. apply contains_of_prefix, prefix_app. Qed.

Lemma contains_refl (s : string) : PyStr.contains s s = true.
Proof. apply contains_of_prefix, prefix_refl. Qed.

Lemma append_assoc (s t u : string) : (s +:+ t) +:+ u = s +:+ t +:+ u.
Proof.
  induction s as [|c s IH]; [reflexivity|].
  change (String c ((s +:+ t) +:+ u) = String c (s +:+ t +:+ u)).
  f_equal. exact IH.
Qed.

(** The string tests mean what their Python names say. *)
Lemma prefix_spec (p s : string) :
  String.prefix p s = true ↔ ∃ post, s = p +:+ post.
Proof.
  revert s. induction p as [|c p IH]; intros s.
  - split; [intros _; exists s; reflexivity|]. intros _. destruct s; reflexivity.
  - destruct s as [|c' s]; cbn [String.prefix].
    + split; [discriminate|]. intros [post H]. discriminate H.
    + destruct (Ascii.ascii_dec c c') as [->|Hne].
      * rewrite IH. split; intros [post H]; exists post.
        -- change (String c' s = String c' (p +:+ post)). congruence.
        -- change (String c' s = String c' (p +:+ post)) in H. congruence.
      * split; [discriminate|]. intros [post H].
        change (String c' s = String c (p +:+ post)) in H. congruence.
Qed.

Lemma endswith_spec (s suf : string) :
  PyStr.endswith s suf = true ↔ ∃ pre, s = pre +:+ suf.
Proof.
  induction s as [|c s IH]; cbn [PyStr.endswith].
  - destruct (String.eqb_spec "" suf) as [<-|Hne].
    + split; [intros _; exists ""; reflexivity|reflexivity].
    + split; [discriminate|]. intros [[|c pre] H]; [|discriminate H].
      contradiction.
  - destruct (String.eqb_spec (String c s) suf) as [<-|Hne].
    + split; [intros _; exists ""; reflexivity|reflexivity].
    + rewrite IH. split.
      * intros [pre ->]. exists (String c pre). reflexivity.
      * intros [[|c' pre] H]; [contradiction|].
        change (String c s = String c' (pre +:+ suf)) in H.
        exists pre. congruence.
Qed.

Lemma contains_spec (needle hay : string) :
  PyStr.contains needle hay = true ↔ ∃ pre post, hay = pre +:+ needle +:+ post.
Proof.
  induction hay as [|c hay IH]; cbn [PyStr.contains].
  - destruct (String.prefix needle "") eqn:Hp.
    + split; [intros _|reflexivity]. apply prefix_spec in Hp as [post H].
      exists "", post. exact H.
    + split; [discriminate|]. intros ([|c pre] & post & H); [|discriminate H].
      assert (String.prefix needle "" = true) as Hp'
        by (apply prefix_spec; exists post; exact H).
      congruence.
  - destruct (String.prefix needle (String c hay)) eqn:Hp.
    + split; [intros _|reflexivity]. apply prefix_spec in Hp as [post H].
      exists "", post. exact H.
    + rewrite IH. split.
      * intros (pre & post & ->). exists (String c pre), post. reflexivity.
      * intros ([|c' pre] & post & H).
        -- assert (String.prefix needle (String c hay) = true) as Hp'
             by (apply prefix_spec; exists post; exact H).
           congruence.
        -- change (String c hay = String c' (pre +:+ needle +:+ post)) in H.
           exists pre, post. congruence.
Qed.

Lemma truthy_false (o : option string) :
  PyStr.truthy o = false ↔ o = None ∨ o = Some "".
Proof.
  destruct o as [[|c s]|]; simpl; split; intros H; auto; try discriminate.
  destruct H as [H|H]; discriminate.
Qed.

(** ** Running monadic code *)

Lemma bind_run {A B} (m : M A) (k : A → M B) (st : state) :
  bind m k st
  = match m st with
    | (Ok a, st') => k a st'
    | (Raise e, st') => (Raise e, st')
    end.
Proof. reflexivity. Qed.

Ltac run :=
  unfold bind, ret, raise, lift, get_state, emit, tick, put_fs, try_except,
    catch_all; cbn [fst snd fs clock trace negb from_option id].


(** ** Code that does not touch the file system *)

Section Quiet.

Context {A B : Type}.

Lemma quiet_ret (a : A) : quiet (ret a).
Proof. intros st. split; [reflexivity|]. exists []. by rewrite app_nil_r. Qed.

Lemma quiet_raise (e : exn) : quiet (@raise A e).
Proof. intros st. split; [reflexivity|]. exists []. by rewrite app_nil_r. Qed.

Lemma quiet_lift (r : result A) : quiet (lift r).
Proof. intros st. split; [reflexivity|]. exists []. by rewrite app_nil_r. Qed.

Lemma quiet_bind (m : M A) (k : A → M B) :
  quiet m → (∀ a, quiet (k a)) → quiet (bind m k).
Proof.
  intros Hm Hk st. unfold bind. destruct (Hm st) as (Hfs & evs & Htr & Hs & Hr).
  destruct (m st) as [[a|e] st1]; cbn in *.
  - destruct (Hk a st1) as (Hfs' & evs' & Htr' & Hs' & Hr').
    split; [congruence|]. exists (evs ++ evs').
    rewrite Htr', Htr, app_assoc. unfold stored, removed in *.
    rewrite !omap_app, Hs, Hs', Hr, Hr'. done.
  - split; [exact Hfs|]. exists evs. done.
Qed.

Lemma quiet_try_except (m : M A) (catches : exn → bool) (h : exn → M A) :
  quiet m → (∀ e, quiet (h e)) → quiet (try_except m catches h).
Proof.
  intros Hm Hh st. unfold try_except.
  destruct (Hm st) as (Hfs & evs & Htr & Hs & Hr).
  destruct (m st) as [[a|e] st1]; cbn in *.
  - split; [exact Hfs|]. exists evs. done.
  - destruct (catches e).
    + destruct (Hh e st1) as (Hfs' & evs' & Htr' & Hs' & Hr').
      split; [congruence|]. exists (evs ++ evs').
      rewrite Htr', Htr, app_assoc. unfold stored, removed in *.
      rewrite !omap_app, Hs, Hs', Hr, Hr'. done.
    + split; [exact Hfs|]. exists evs. done.
Qed.

End Quiet.

Lemma quiet_get_state : quiet get_state.
Proof. intros st. split; [reflexivity|]. exists []. by rewrite app_nil_r. Qed.

Lemma quiet_tick : quiet tick.
Proof. intros st. split; [reflexivity|]. exists []. by rewrite app_nil_r. Qed.

Lemma quiet_emit (ev : event) :
  stored [ev] = [] → removed [ev] = [] → quiet (emit ev).
Proof. intros Hs Hr st. split; [reflexivity|]. exists [ev]. done. Qed.

Lemma quiet_for_return {A R} (xs : list A) (body : A → M (option R)) (after : M R) :
  (∀ x, quiet (body x)) → quiet after → quiet (for_return xs body after).
Proof.
  intros Hb Ha. induction xs as [|x xs IH]; cbn; [exact Ha|].
  apply quiet_bind; [apply Hb|]. intros [r|]; [apply quiet_ret|exact IH].
Qed.

Create HintDb quiet.
#[export] Hint Resolve quiet_ret quiet_raise quiet_lift quiet_get_state quiet_tick
  quiet_for_return : quiet.

(** Decompose monadic code into its quiet parts. *)
Ltac quiet_step :=
  lazymatch goal with
  | |- quiet (bind _ _) => apply quiet_bind
  | |- quiet (try_except _ _ _) => apply quiet_try_except
  | |- quiet (emit _) => apply quiet_emit; reflexivity
  | |- quiet (for_return _ _ _) => apply quiet_for_return
  | |- quiet (if ?b then _ else _) => destruct b
  | |- quiet (match ?x with _ => _ end) => destruct x
  | |- quiet _ => solve [eauto 2 with quiet]
  | |- ∀ _, _ => intro
  end.

Ltac quiet_steps := repeat quiet_step.

Lemma handle_line_quiet (model_name : string) (l : line) :
  quiet (handle_line model_name l).
Proof. unfold handle_line. quiet_steps. Qed.

Lemma pull_quiet (w : world) (model_name : string) :
  quiet (pull_model_with_progress w model_name).
Proof.
  unfold pull_model_with_progress. quiet_steps. apply handle_line_quiet.
Qed.

Lemma ensure_quiet (w : world) (model_name : string) :
  quiet (ensure_ollama_model_available w model_name).
Proof.
  unfold ensure_ollama_model_available. quiet_steps; apply pull_quiet.
Qed.

Lemma triage_quiet (w : world) (model : backend) (T : string) :
  quiet (triage w model T).
Proof.
  destruct model; unfold triage, triage_ticket_ollama, triage_ticket_gemini;
    quiet_steps.
Qed.
(** ** The adapters *)

Section Adapters.

Variable w : world.

(** The configured local model reaches [ollama.chat] together with the
    rendered prompt, as the call that the run records. *)
Lemma triage_ticket_ollama_sends (T model : string) (st : state) :
  os_getenv w "OLLAMA_MODEL" = Some model →
  PyStr.truthy (Some model) = true →
  trace (snd (triage_ticket_ollama w T st))
  = trace st ++ [Chatted model (ollama_prompt T)].
Proof.
  intros Henv Ht. unfold triage_ticket_ollama. rewrite Henv, Ht. run.
  destruct (ollama_chat w (clock st) _ _); reflexivity.
Qed.

Lemma triage_ticket_gemini_sends (T : string) (st : state) :
  genai_Client w (clock st) = Ok tt →
  trace (snd (triage_ticket_gemini w T st))
  = trace st ++ [Generated "gemini-2.5-flash" (gemini_prompt T)].
Proof.
  intros Hc. unfold triage_ticket_gemini. run. rewrite Hc. run.
  destruct (generate_content w (clock st) _ _); reflexivity.
Qed.

(** The remote adapter has no path on which it raises. *)
Lemma triage_ticket_gemini_total (T : string) (st : state) :
  ∃ report, fst (triage_ticket_gemini w T st) = Ok report.
Proof.
  unfold triage_ticket_gemini. run.
  destruct (genai_Client w (clock st)); run; [|eauto].
  destruct (generate_content w (clock st) _ _); run; eauto.
Qed.

(** Once the model is configured, neither has the local adapter. *)
Lemma triage_ticket_ollama_total (T : string) (st : state) :
  PyStr.truthy (os_getenv w "OLLAMA_MODEL") = true →
  ∃ report, fst (triage_ticket_ollama w T st) = Ok report.
Proof.
  intros Ht. unfold triage_ticket_ollama. rewrite Ht. run.
  destruct (ollama_chat w (clock st) _ _); run; eauto.
Qed.

End Adapters.

(** C2. Each adapter on its own, for every ticket text and every
    exception [e] of the backend call.  When [OLLAMA_MODEL] is set and
    [ollama.chat] raises [e], the local adapter returns normally, and what
    it returns is ["Error during Ollama triage: "] followed by the message
    of [e].  When the construction of the remote client or the generation
    request raises [e], the remote adapter returns normally, and what it
    returns is ["Error during Gemini triage: "] followed by the message of
    [e].  In both cases the report contains that text, which is what the
    repository's tests look for, and the exception does not reach the
    caller.  Neither half supposes anything about the other backend. *)
Theorem adapters_contain_backend_errors (w : world) (T : string) (st : state) :
  (∀ (model : string) (e : exn),
     os_getenv w "OLLAMA_MODEL" = Some model →
     PyStr.truthy (Some model) = true →
     ollama_chat w (clock st) model (ollama_prompt T) = Raise e →
     ∃ report,
       fst (triage_ticket_ollama w T st) = Ok report
       ∧ report = "Error during Ollama triage: " +:+ exn_str e
       ∧ PyStr.contains ("Error during Ollama triage: " +:+ exn_str e) report = true)
  ∧ (∀ e : exn,
       genai_Client w (clock st) = Raise e
       ∨ (genai_Client w (clock st) = Ok tt
          ∧ generate_content w (clock st) "gemini-2.5-flash" (gemini_prompt T)
            = Raise e) →
       ∃ report,
         fst (triage_ticket_gemini w T st) = Ok report
         ∧ report = "Error during Gemini triage: " +:+ exn_str e
         ∧ PyStr.contains ("Error during Gemini triage: " +:+ exn_str e) report = true).
Proof.
  split.
  - intros model e Henv Ht Hchat. eexists. split; [|split; [reflexivity|]].
    + unfold triage_ticket_ollama. rewrite Henv, Ht. run. cbn [default].
      rewrite Hchat. reflexivity.
    + apply contains_refl.
  - intros e Hgem. eexists. split; [|split; [reflexivity|]].
    + unfold triage_ticket_gemini. run.
      destruct Hgem as [Hc|[Hc Hg]]; rewrite Hc; run; [reflexivity|].
      rewrite Hg. reflexivity.
    + apply contains_refl.
Qed.

(** The local half where only the local service is down, the remote half
    where [OLLAMA_MODEL] is not even set. *)
Lemma adapters_contain_backend_errors_witness :
  (∃ report,
     fst (triage_ticket_ollama Examples.local_down "My printer is on fire."
            Examples.empty_state) = Ok report
     ∧ report = "Error during Ollama triage: " +:+ "Ollama API is down"
     ∧ PyStr.contains ("Error during Ollama triage: " +:+ "Ollama API is down") report
       = true)
  ∧ (∃ report,
       fst (triage_ticket_gemini Examples.remote_down "My printer is on fire."
              Examples.empty_state) = Ok report
       ∧ report = "Error during Gemini triage: " +:+ "quota exceeded"
       ∧ PyStr.contains ("Error during Gemini triage: " +:+ "quota exceeded") report
         = true).
Proof.
  split.
  - apply (proj1 (adapters_contain_backend_errors Examples.local_down
                    "My printer is on fire." Examples.empty_state)
             "gemma3:12b" (Examples.generic_error "Ollama API is down")).
    + reflexivity.
    + reflexivity.
    + reflexivity.
  - apply (proj2 (adapters_contain_backend_errors Examples.remote_down
                    "My printer is on fire." Examples.empty_state)
             (Examples.generic_error "quota exceeded")).
    right. split; reflexivity.
Defined.

(** C3. With [OLLAMA_MODEL] absent or empty the local adapter raises a
    [ValueError] whose message names the setting, and the state it leaves
    is the state it found: no call was recorded, the clock did not move. *)
Theorem ollama_requires_model (w : world) (T : string) (st : state) :
  os_getenv w "OLLAMA_MODEL" = None ∨ os_getenv w "OLLAMA_MODEL" = Some "" →
  triage_ticket_ollama w T st
  = (Raise (Exn ValueError "OLLAMA_MODEL environment variable not set."), st)
  ∧ PyStr.contains "OLLAMA_MODEL" "OLLAMA_MODEL environment variable not set." = true.
Proof.
  intros H. apply truthy_false in H. unfold triage_ticket_ollama.
  rewrite H. split; reflexivity.
Qed.

Lemma ollama_requires_model_witness :
  triage_ticket_ollama Examples.unconfigured "My printer is on fire." Examples.empty_state
  = (Raise (Exn ValueError "OLLAMA_MODEL environment variable not set."),
     Examples.empty_state)
  ∧ PyStr.contains "OLLAMA_MODEL" "OLLAMA_MODEL environment variable not set." = true.
Proof.
  apply (ollama_requires_model Examples.unconfigured "My printer is on fire."
           Examples.empty_state).
  left. reflexivity.
Defined.


(** C4. The two adapters render the same prompt for every ticket text, and
    that prompt is one fixed head, the opening ["---"] line, the ticket text
    unchanged (after the four-space indentation of the template), the
    closing ["---"] line and one fixed tail. *)
Theorem prompt_equivalence :
  ∃ head tail : string,
    ∀ T : string,
      ollama_prompt T = gemini_prompt T
      ∧ ollama_prompt T
        = head +:+ "---" +:+ PyStr.nl +:+ "    " +:+ T +:+ PyStr.nl +:+ "    "
          +:+ "---" +:+ tail
      ∧ gemini_prompt T
        = head +:+ "---" +:+ PyStr.nl +:+ "    " +:+ T +:+ PyStr.nl +:+ "    "
          +:+ "---" +:+ tail.
Proof.
  exists (String.substring 0 769 (ollama_prompt "")),
         (String.substring 785 63 (ollama_prompt "")).
  intros T. repeat split; reflexivity.
Qed.

(** C7. When the remote call succeeds and the response's [text] is [None]
    or empty, the remote adapter returns the empty-response sentinel, and no
    contained-error string (whatever the exception message) equals it. *)
Theorem gemini_empty_response (w : world) (T : string) (st : state) :
  genai_Client w (clock st) = Ok tt →
  (generate_content w (clock st) "gemini-2.5-flash" (gemini_prompt T) = Ok None
   ∨ generate_content w (clock st) "gemini-2.5-flash" (gemini_prompt T) = Ok (Some "")) →
  fst (triage_ticket_gemini w T st) = Ok "Error: Empty response from Gemini."
  ∧ ∀ e : exn,
      "Error: Empty response from Gemini." ≠ "Error during Gemini triage: " +:+ exn_str e.
Proof.
  intros Hc Hg. split.
  - unfold triage_ticket_gemini. run. rewrite Hc. run.
    destruct Hg as [Hg|Hg]; rewrite Hg; reflexivity.
  - intros e H. cbn in H. discriminate H.
Qed.

Lemma gemini_empty_response_witness :
  fst (triage_ticket_gemini Examples.unconfigured "My printer is on fire."
         Examples.empty_state)
  = Ok "Error: Empty response from Gemini."
  ∧ ∀ e : exn,
      "Error: Empty response from Gemini." ≠ "Error during Gemini triage: " +:+ exn_str e.
Proof.
  apply (gemini_empty_response Examples.unconfigured "My printer is on fire."
           Examples.empty_state).
  - reflexivity.
  - right. reflexivity.
Defined.

(** The two success tests of the repository: the report comes back
    unchanged and the call names the configured, respectively the fixed,
    model. *)
Example triage_ticket_ollama_success :
  let run := triage_ticket_ollama Examples.steady "My printer is on fire."
               Examples.empty_state in
  fst run = Ok "Urgency: High"
  ∧ trace (snd run) = [Chatted "gemma3:12b" (ollama_prompt "My printer is on fire.")].
Proof. split; reflexivity. Qed.

Example triage_ticket_gemini_success :
  let run := triage_ticket_gemini Examples.steady "My printer is on fire."
               Examples.empty_state in
  fst run = Ok "Urgency: High"
  ∧ trace (snd run)
    = [Generated "gemini-2.5-flash" (gemini_prompt "My printer is on fire.")].
Proof. split; reflexivity. Qed.


(** ** The streaming pull *)

Section Pull.

Variable w : world.
Variable model_name : string.

Lemma for_return_quiet (ls : list line) (after : M bool) (st : state) :
  Forall (falls_through model_name) ls →
  ∃ st', for_return ls (handle_line model_name) after st = after st'.
Proof.
  intros H. revert st. induction H as [|l ls Hl _ IH]; intros st; cbn.
  - eauto.
  - unfold bind. specialize (Hl st).
    destruct (handle_line model_name l st) as [r st1]. cbn in Hl. subst r.
    apply IH.
Qed.

Lemma for_return_broken (pre post : list line) (e : exn) (after : M bool)
    (st : state) :
  Forall (falls_through model_name) pre →
  ∃ st', for_return (pre ++ Broken e :: post) (handle_line model_name) after st
         = (Raise e, st').
Proof.
  intros H. revert st. induction H as [|l ls Hl _ IH]; intros st; cbn.
  - eauto.
  - unfold bind at 1. specialize (Hl st).
    destruct (handle_line model_name l st) as [r st1]. cbn in Hl. subst r.
    apply IH.
Qed.

Lemma pull_unfold (st : state) :
  pull_model_with_progress w model_name st
  = try_except
      (response <- lift (requests_post w (clock st) pull_url model_name) ;;
       if negb (status_code response =? 200)%Z then ret false
       else
         for_return (iter_lines response) (handle_line model_name)
           (emit (Printed (PyStr.nl +:+ "Pull process completed.")) ;;
            ret true))
      is_RequestException
      (fun e => ret false)
      (posted model_name st).
Proof. reflexivity. Qed.

Lemma pull_failure_False (st : state) :
  pull_failure w model_name st →
  fst (pull_model_with_progress w model_name st) = Ok false.
Proof.
  intros H. rewrite pull_unfold. unfold try_except, bind at 1, lift.
  destruct H as [resp Hp Hs | e Hp He | resp pre post e Hp Hs Hl Hq He];
    rewrite Hp.
  - apply Z.eqb_neq in Hs. rewrite Hs. reflexivity.
  - rewrite He. reflexivity.
  - rewrite Hs, Z.eqb_refl. cbn [negb]. rewrite Hl.
    destruct (for_return_broken pre post e
                (emit (Printed (PyStr.nl +:+ "Pull process completed.")) ;; ret true)
                (posted model_name st) Hq) as [st' ->].
    rewrite He. reflexivity.
Qed.

(** An exception leaves the pull only if it is not a [RequestException]. *)
Lemma pull_raise_not_request (st : state) (e : exn) :
  fst (pull_model_with_progress w model_name st) = Raise e →
  is_RequestException e = false.
Proof.
  rewrite pull_unfold. unfold try_except.
  match goal with
  | |- context [match ?m (posted model_name st) with _ => _ end] =>
      destruct (m (posted model_name st)) as [[b|e'] st']
  end; cbn; [discriminate|].
  destruct (is_RequestException e') eqn:He; cbn; [discriminate|].
  intros [= <-]. exact He.
Qed.

Lemma ensure_listing_raises (st : state) (e : exn) :
  ollama_list w (clock st) = Raise e →
  ensure_ollama_model_available w model_name st = (Raise e, listed st).
Proof.
  intros H. unfold ensure_ollama_model_available. run. rewrite H. reflexivity.
Qed.

Lemma ensure_known (st : state) (models : list (gmap string string)) :
  ollama_list w (clock st) = Ok models →
  known_locally model_name models = true →
  ensure_ollama_model_available w model_name st = (Ok tt, listed st).
Proof.
  intros H Hk. unfold ensure_ollama_model_available. run. rewrite H.
  unfold known_locally in Hk. rewrite Hk. reflexivity.
Qed.

(** When the model is not listed, the checker's outcome is the pull's,
    with the boolean dropped. *)
Lemma ensure_pulls (st : state) (models : list (gmap string string)) :
  ollama_list w (clock st) = Ok models →
  known_locally model_name models = false →
  ensure_ollama_model_available w model_name st
  = match pull_model_with_progress w model_name (listed st) with
    | (Ok _, st') => (Ok tt, st')
    | (Raise e, st') => (Raise e, st')
    end.
Proof.
  intros H Hk. unfold ensure_ollama_model_available. run. rewrite H.
  unfold known_locally in Hk. rewrite Hk. cbn [negb].
  fold (listed st).
  destruct (pull_model_with_progress w model_name (listed st)) as [[b|e] st'];
    reflexivity.
Qed.

End Pull.

Lemma existsb_assoc (key : string) (kvs : list (string * json)) :
  existsb (fun kv => String.eqb (fst kv) key) kvs
  = match Py.assoc key kvs with
    | Some _ => true
    | None => false
    end.
Proof.
  induction kvs as [|[k x] kvs IH]; [reflexivity|]. cbn [existsb fst Py.assoc].
  destruct (String.eqb k key); [reflexivity|exact IH].
Qed.

(** Blank lines and ordinary progress events fall through. *)
Lemma blank_falls_through (model_name : string) : falls_through model_name Blank.
Proof. intros st. reflexivity. Qed.

Lemma progress_event_falls_through (model_name : string) (kvs : list (string * json)) :
  progress_event kvs → falls_through model_name (Parsed (JObj kvs)).
Proof.
  intros [Hs Hp] st. unfold handle_line. run. cbn [Py.contains Py.getitem].
  rewrite !existsb_assoc.
  destruct (Py.assoc "status" kvs) as [[| | |s| |]|]; try contradiction;
    cbn [Py.lower]; rewrite ?Hs;
    (destruct (Py.assoc "total" kvs) as [total|]; [|reflexivity]);
    (destruct (Py.assoc "completed" kvs) as [completed|]; [|reflexivity]);
    destruct Hp as [q ->]; reflexivity.
Qed.

(** A status event that announces completion makes the loop body return
    [True] on the spot. *)
Lemma handle_line_terminal (model_name : string) (kvs : list (string * json))
    (s : string) (st : state) :
  Py.assoc "status" kvs = Some (JStr s) →
  PyStr.contains "success" (PyStr.lower s) || PyStr.contains "finished" (PyStr.lower s)
  = true →
  handle_line model_name (Parsed (JObj kvs)) st = (Ok (Some true), st).
Proof.
  intros Ha Hc. unfold handle_line. run. cbn [Py.contains Py.getitem].
  assert (existsb (fun kv => String.eqb (fst kv) "status") kvs = true) as ->.
  { clear Hc. induction kvs as [|[k x] kvs IH]; [discriminate|].
    cbn [existsb fst]. cbn [Py.assoc] in Ha.
    destruct (String.eqb k "status"); [reflexivity|]. cbn. auto. }
  rewrite Ha. cbn [Py.lower]. rewrite Hc. reflexivity.
Qed.

Lemma pull_exhausted (w : world) (model_name : string) (st : state) (resp : response) :
  requests_post w (clock st) pull_url model_name = Ok resp →
  status_code resp = 200%Z →
  Forall (falls_through model_name) (iter_lines resp) →
  ∃ st',
    pull_model_with_progress w model_name st
    = (Ok true,
       State (fs st') (clock st')
         (trace st' ++ [Printed (PyStr.nl +:+ "Pull process completed.")])).
Proof.
  intros Hp Hs Hq. rewrite pull_unfold. unfold try_except, bind at 1, lift.
  rewrite Hp, Hs, Z.eqb_refl. cbn [negb].
  destruct (for_return_quiet model_name (iter_lines resp)
              (emit (Printed (PyStr.nl +:+ "Pull process completed.")) ;; ret true)
              (posted model_name st) Hq) as [st' ->].
  exists st'. reflexivity.
Qed.

(** In particular a stream of blank lines and ordinary progress events,
    with no closing event, counts as a successful pull. *)
Lemma pull_progress_only (w : world) (model_name : string) (st : state)
    (resp : response) :
  requests_post w (clock st) pull_url model_name = Ok resp →
  status_code resp = 200%Z →
  Forall (fun l => l = Blank ∨ ∃ kvs, l = Parsed (JObj kvs) ∧ progress_event kvs)
    (iter_lines resp) →
  fst (pull_model_with_progress w model_name st) = Ok true.
Proof.
  intros Hp Hs Hl.
  destruct (pull_exhausted w model_name st resp Hp Hs) as [st' ->]; [|reflexivity].
  eapply Forall_impl; [exact Hl|]. intros l [->|(kvs & -> & Hk)].
  - apply blank_falls_through.
  - apply progress_event_falls_through, Hk.
Qed.

(** C10. When the pull endpoint answers 200 and every line of the stream
    falls through the loop body (none announces completion, none raises),
    the function reaches the code after the loop: it prints the closing
    message and returns [True]. *)
Theorem pull_exhausted_stream_is_success
    (w : world) (model_name : string) (st : state) (resp : response) :
  requests_post w (clock st) pull_url model_name = Ok resp →
  status_code resp = 200%Z →
  Forall (falls_through model_name) (iter_lines resp) →
  fst (pull_model_with_progress w model_name st) = Ok true
  ∧ last (trace (snd (pull_model_with_progress w model_name st)))
    = Some (Printed (PyStr.nl +:+ "Pull process completed.")).
Proof.
  intros Hp Hs Hq.
  destruct (pull_exhausted w model_name st resp Hp Hs Hq) as [st' ->].
  split; [reflexivity|]. apply last_snoc.
Qed.

Lemma pull_exhausted_stream_is_success_witness :
  fst (pull_model_with_progress (Examples.pulling Examples.progress_only)
         "gemma3:12b" Examples.empty_state) = Ok true
  ∧ last (trace (snd (pull_model_with_progress
                        (Examples.pulling Examples.progress_only)
                        "gemma3:12b" Examples.empty_state)))
    = Some (Printed (PyStr.nl +:+ "Pull process completed.")).
Proof.
  apply (pull_exhausted_stream_is_success
           (Examples.pulling Examples.progress_only) "gemma3:12b"
           Examples.empty_state Examples.progress_only).
  - reflexivity.
  - reflexivity.
  - repeat constructor; intros st; reflexivity.
Defined.

(** C6, as the code has it, in three parts that suppose nothing of one
    another.  A pull that fails with a response other than 200, or with a
    [RequestException] raised by the request or by the stream, returns
    [False], from whatever state it is started.  When the listing succeeds
    and does not name the model, the availability checker runs that pull;
    if it fails in one of these ways the checker receives [False], not an
    exception, and returns normally.  A listing that raises makes the
    availability checker raise the same exception. *)
Theorem pull_failure_False_listing_failure_raised
    (w : world) (model_name : string) (st : state) :
  (pull_failure w model_name st →
   fst (pull_model_with_progress w model_name st) = Ok false)
  ∧ (∀ models : list (gmap string string),
       ollama_list w (clock st) = Ok models →
       known_locally model_name models = false →
       pull_failure w model_name (listed st) →
       fst (pull_model_with_progress w model_name (listed st)) = Ok false
       ∧ fst (ensure_ollama_model_available w model_name st) = Ok tt)
  ∧ (∀ e : exn,
       ollama_list w (clock st) = Raise e →
       fst (ensure_ollama_model_available w model_name st) = Raise e).
Proof.
  split; [|split].
  - apply pull_failure_False.
  - intros models Hlist Hunknown Hf.
    pose proof (pull_failure_False w model_name (listed st) Hf) as Hpull.
    split; [exact Hpull|].
    rewrite (ensure_pulls w model_name st models Hlist Hunknown).
    destruct (pull_model_with_progress w model_name (listed st)) as [[b|e] st'];
      [reflexivity|discriminate Hpull].
  - intros e Hl. rewrite (ensure_listing_raises w model_name st e Hl). reflexivity.
Qed.

(** The three parts in three worlds: a pull refused with status 500, started
    on its own; a pull that the checker starts after a listing without the
    model, and whose stream breaks; a listing that raises. *)
Lemma pull_failure_False_listing_failure_raised_witness :
  fst (pull_model_with_progress (Examples.pulling Examples.refused)
         "gemma3:12b" Examples.empty_state) = Ok false
  ∧ (fst (pull_model_with_progress (Examples.pulling Examples.interrupted)
            "gemma3:12b" (listed Examples.empty_state)) = Ok false
     ∧ fst (ensure_ollama_model_available (Examples.pulling Examples.interrupted)
              "gemma3:12b" Examples.empty_state) = Ok tt)
  ∧ fst (ensure_ollama_model_available Examples.down "gemma3:12b"
           Examples.empty_state)
    = Raise (Examples.generic_error "connection refused").
Proof.
  split; [|split].
  - apply (proj1 (pull_failure_False_listing_failure_raised
                    (Examples.pulling Examples.refused) "gemma3:12b"
                    Examples.empty_state)).
    apply (bad_status _ _ _ Examples.refused); [reflexivity|discriminate].
  - apply (proj1 (proj2 (pull_failure_False_listing_failure_raised
                           (Examples.pulling Examples.interrupted) "gemma3:12b"
                           Examples.empty_state)) []).
    + reflexivity.
    + reflexivity.
    + apply (stream_error _ _ _ Examples.interrupted
               [ Parsed (JObj [("status", JStr "pulling manifest")]) ]
               [ Parsed (JObj [("status", JStr "success")]) ]
               (Exn RequestException "connection reset")).
      * reflexivity.
      * reflexivity.
      * reflexivity.
      * repeat constructor.
      * reflexivity.
  - apply (proj2 (proj2 (pull_failure_False_listing_failure_raised
                           Examples.down "gemma3:12b" Examples.empty_state))).
    reflexivity.
Defined.

(** C6, as the claim words it, fails: a line that is not JSON makes
    [json.loads] raise a [JSONDecodeError], which is no [RequestException];
    the pull raises it instead of returning [False], and the availability
    checker raises it in turn. *)
Lemma pull_parse_error_is_raised :
  fst (pull_model_with_progress (Examples.pulling Examples.garbled)
         "gemma3:12b" (listed Examples.empty_state))
  = Raise (Exn JSONDecodeError "Expecting value: line 1 column 1 (char 0)")
  ∧ fst (pull_model_with_progress (Examples.pulling Examples.garbled)
           "gemma3:12b" (listed Examples.empty_state))
    ≠ Ok false
  ∧ fst (ensure_ollama_model_available (Examples.pulling Examples.garbled)
           "gemma3:12b" Examples.empty_state)
    = Raise (Exn JSONDecodeError "Expecting value: line 1 column 1 (char 0)").
Proof. repeat split. discriminate. Qed.

(** The same happens when an event reports a total of zero bytes: the
    progress ratio divides by zero. *)
Example pull_zero_total_is_raised :
  fst (pull_model_with_progress
         (Examples.pulling
            (Response 200 ""
               [Parsed (JObj [("total", JNum 0); ("completed", JNum 0)])]))
         "gemma3:12b" Examples.empty_state)
  = Raise (Exn ZeroDivisionError "division by zero").
Proof. reflexivity. Qed.

(** ** Code whose outcome does not depend on the state *)

Section Timeless.

Context {A B : Type}.

Lemma timeless_ret (a : A) : timeless (ret a).
Proof. intros st st'. reflexivity. Qed.

Lemma timeless_raise (e : exn) : timeless (@raise A e).
Proof. intros st st'. reflexivity. Qed.

Lemma timeless_lift (r : result A) : timeless (lift r).
Proof. intros st st'. reflexivity. Qed.

Lemma timeless_bind (m : M A) (k : A → M B) :
  timeless m → (∀ a, timeless (k a)) → timeless (bind m k).
Proof.
  intros Hm Hk st st'. unfold bind. specialize (Hm st st').
  destruct (m st) as [[a|e] s1], (m st') as [[a'|e'] s1']; cbn in Hm;
    try discriminate; injection Hm as ->; [apply Hk|reflexivity].
Qed.

Lemma timeless_try_except (m : M A) (catches : exn → bool) (h : exn → M A) :
  timeless m → (∀ e, timeless (h e)) → timeless (try_except m catches h).
Proof.
  intros Hm Hh st st'. unfold try_except. specialize (Hm st st').
  destruct (m st) as [[a|e] s1], (m st') as [[a'|e'] s1']; cbn in Hm;
    try discriminate; injection Hm as ->; [reflexivity|].
  destruct (catches e'); [apply Hh|reflexivity].
Qed.

End Timeless.

Lemma timeless_emit (ev : event) : timeless (emit ev).
Proof. intros st st'. reflexivity. Qed.

Lemma timeless_tick : timeless tick.
Proof. intros st st'. reflexivity. Qed.

Lemma timeless_for_return {A R} (xs : list A) (body : A → M (option R)) (after : M R) :
  (∀ x, timeless (body x)) → timeless after → timeless (for_return xs body after).
Proof.
  intros Hb Ha. induction xs as [|x xs IH]; cbn; [exact Ha|].
  apply timeless_bind; [apply Hb|]. intros [r|]; [apply timeless_ret|exact IH].
Qed.

Ltac timeless_step :=
  lazymatch goal with
  | |- timeless (bind _ _) => apply timeless_bind
  | |- timeless (try_except _ _ _) => apply timeless_try_except
  | |- timeless (for_return _ _ _) => apply timeless_for_return
  | |- timeless (ret _) => apply timeless_ret
  | |- timeless (raise _) => apply timeless_raise
  | |- timeless (lift _) => apply timeless_lift
  | |- timeless (emit _) => apply timeless_emit
  | |- timeless tick => apply timeless_tick
  | |- timeless (if ?b then _ else _) => destruct b
  | |- timeless (match ?x with _ => _ end) => destruct x
  | |- ∀ _, _ => intro
  end.

Ltac timeless_steps := repeat timeless_step.

(** What the loop body does with a line depends on the line alone. *)
Lemma handle_line_timeless (model_name : string) (l : line) :
  timeless (handle_line model_name l).
Proof. unfold handle_line. timeless_steps. Qed.

Section Stationary.

Variable w : world.
Hypothesis Hstat : stationary_backends w.

Lemma pull_stationary (model_name : string) :
  timeless (pull_model_with_progress w model_name).
Proof.
  intros st st'. rewrite !pull_unfold.
  destruct (Hstat (clock st) (clock st')) as (_ & -> & _).
  assert (timeless
            (try_except
               (response <- lift (requests_post w (clock st') pull_url model_name) ;;
                if negb (status_code response =? 200)%Z then ret false
                else
                  for_return (iter_lines response) (handle_line model_name)
                    (emit (Printed (PyStr.nl +:+ "Pull process completed.")) ;;
                     ret true))
               is_RequestException
               (fun e => ret false))) as H.
  { timeless_steps. apply handle_line_timeless. }
  apply H.
Qed.

Lemma ensure_unfold (model_name : string) (st : state) :
  ensure_ollama_model_available w model_name st
  = try_except
      (local_models <- lift (ollama_list w (clock st)) ;;
       if negb (known_locally model_name local_models) then
         pull_model_with_progress w model_name ;;
         ret tt
       else ret tt)
      catch_all
      (fun e => raise e)
      (listed st).
Proof. reflexivity. Qed.

Lemma ensure_stationary (model_name : string) :
  timeless (ensure_ollama_model_available w model_name).
Proof.
  intros st st'. rewrite !ensure_unfold.
  destruct (Hstat (clock st) (clock st')) as (-> & _).
  assert (timeless
            (try_except
               (local_models <- lift (ollama_list w (clock st')) ;;
                if negb (known_locally model_name local_models) then
                  pull_model_with_progress w model_name ;;
                  ret tt
                else ret tt)
               catch_all
               (fun e => raise e))) as H.
  { timeless_steps. apply pull_stationary. }
  apply H.
Qed.

Lemma check_backend_stationary (model : backend) :
  timeless (check_backend w model).
Proof.
  unfold check_backend. destruct model; [|apply timeless_ret].
  destruct (negb _); [apply timeless_raise|apply ensure_stationary].
Qed.

End Stationary.
(** ** What a piece of code may change *)

Lemma dirs_differ : original_dir ≠ triaged_dir.
Proof. discriminate. Qed.

Lemma for_app {A} (xs ys : list A) (body : A → M unit) (st : state) :
  for_ (xs ++ ys) body st = (for_ xs body ;; for_ ys body) st.
Proof.
  revert st. induction xs as [|x xs IH]; intros st; [reflexivity|].
  cbn [for_ app]. rewrite !bind_run.
  destruct (body x st) as [[[]|e] st1]; [|reflexivity].
  rewrite IH, bind_run. reflexivity.
Qed.

Lemma entry_insert_other (f : gmap string (gmap string node)) (d : gmap string node)
    (dir name dir' name' : string) (e : option node) :
  f !! dir = Some d →
  ¬ (dir' = dir ∧ name' = name) →
  entry (<[dir := partial_alter (fun _ => e) name d]> f) dir' name' = entry f dir' name'.
Proof.
  intros Hd Hne. unfold entry. destruct (decide (dir = dir')) as [<-|Hdir].
  - rewrite lookup_insert_eq, Hd. cbn.
    apply lookup_partial_alter_ne. intros <-. apply Hne. auto.
  - rewrite lookup_insert_ne by exact Hdir. reflexivity.
Qed.

Section Touches.

Context {A B : Type} (S : string → string → Prop).

Lemma touches_quiet (m : M A) : quiet m → touches_only S m.
Proof. intros Hq st dir name _. destruct (Hq st) as [-> _]. reflexivity. Qed.

Lemma touches_bind (m : M A) (k : A → M B) :
  touches_only S m → (∀ a, touches_only S (k a)) → touches_only S (bind m k).
Proof.
  intros Hm Hk st dir name Hn. unfold bind. specialize (Hm st dir name Hn).
  destruct (m st) as [[a|e] st1]; cbn in *; [|exact Hm].
  rewrite (Hk a st1 dir name Hn). exact Hm.
Qed.

End Touches.

Lemma touches_for_ {A} (S : string → string → Prop) (xs : list A) (body : A → M unit) :
  (∀ x, x ∈ xs → touches_only S (body x)) → touches_only S (for_ xs body).
Proof.
  induction xs as [|x xs IH]; intros Hb; cbn [for_].
  - apply touches_quiet, quiet_ret.
  - apply touches_bind; [apply Hb; left|]. intros _. apply IH.
    intros y Hy. apply Hb. right. exact Hy.
Qed.

Lemma write_text_touches (S : string → string → Prop) (dir name content : string) :
  S dir name → touches_only S (write_text dir name content).
Proof.
  intros HS st dir' name' Hn. unfold write_text. run.
  destruct (fs st !! dir) as [d|] eqn:Hd; [|reflexivity].
  assert (entry (<[dir := <[name := File content]> d]> (fs st)) dir' name'
          = entry (fs st) dir' name') as Hw.
  { apply (entry_insert_other (fs st) d dir name dir' name' (Some (File content)) Hd).
    intros [-> ->]. exact (Hn HS). }
  destruct (d !! name) as [[c|reason|]|]; cbn; try exact Hw. reflexivity.
Qed.

Lemma process_entry_touches (w : world) (model : backend)
    (S : string → string → Prop) (name : string) :
  S triaged_dir name → touches_only S (process_entry w model name).
Proof.
  intros HS. unfold process_entry.
  destruct (PyStr.endswith name ".md"); [|apply touches_quiet, quiet_ret].
  apply touches_bind; [apply touches_quiet; unfold read_text; quiet_steps|].
  intros C. apply touches_bind; [apply touches_quiet, triage_quiet|].
  intros r. apply write_text_touches, HS.
Qed.

(** Processing the entries of a list leaves alone the output of every
    name that is not in the list, however the loop ends. *)
Lemma for_process_entries_other (w : world) (model : backend)
    (names : list string) (name : string) (st : state) :
  name ∉ names →
  entry (fs (snd (for_ names (process_entry w model) st))) triaged_dir name
  = entry (fs st) triaged_dir name.
Proof.
  intros Hn.
  apply (touches_for_ (fun dir n => dir = triaged_dir ∧ n ∈ names)).
  - intros x Hx. apply process_entry_touches. auto.
  - intros [_ H]. contradiction.
Qed.


(** *** Changes confined to the output directory *)

Lemma output_changes_refl (S : string → Prop) (f : gmap string (gmap string node)) :
  output_changes_only S f f.
Proof. repeat split; auto. Qed.

Lemma output_changes_trans (S : string → Prop)
    (f1 f2 f3 : gmap string (gmap string node)) :
  output_changes_only S f1 f2 → output_changes_only S f2 f3 →
  output_changes_only S f1 f3.
Proof.
  intros (Ha & Hb & Hc) (Ha' & Hb' & Hc'). split; [|split].
  - intros dir Hne. rewrite Ha', Ha by exact Hne. reflexivity.
  - auto.
  - intros name Hn. rewrite Hc', Hc by exact Hn. reflexivity.
Qed.

Section Confined.

Context {A B : Type} (S : string → Prop).

Lemma confined_quiet (m : M A) : quiet m → confined S m.
Proof. intros Hq st. destruct (Hq st) as [-> _]. apply output_changes_refl. Qed.

Lemma confined_bind (m : M A) (k : A → M B) :
  confined S m → (∀ a, confined S (k a)) → confined S (bind m k).
Proof.
  intros Hm Hk st. unfold bind. specialize (Hm st).
  destruct (m st) as [[a|e] st1]; cbn in *; [|exact Hm].
  eapply output_changes_trans; [exact Hm|apply Hk].
Qed.

End Confined.

Lemma confined_for_ {A} (S : string → Prop) (xs : list A) (body : A → M unit) :
  (∀ x, x ∈ xs → confined S (body x)) → confined S (for_ xs body).
Proof.
  induction xs as [|x xs IH]; intros Hb; cbn [for_].
  - apply confined_quiet, quiet_ret.
  - apply confined_bind; [apply Hb; left|]. intros _. apply IH.
    intros y Hy. apply Hb. right. exact Hy.
Qed.

Lemma write_text_confined (S : string → Prop) (name content : string) :
  S name → confined S (write_text triaged_dir name content).
Proof.
  intros HS st. unfold write_text. run.
  destruct (fs st !! triaged_dir) as [t|] eqn:Ht; [|apply output_changes_refl].
  assert (output_changes_only S (fs st)
            (<[triaged_dir := <[name := File content]> t]> (fs st))) as Hw.
  { split; [|split].
    - intros dir Hne. apply lookup_insert_ne. congruence.
    - intros _. rewrite lookup_insert_eq. eauto.
    - intros name' Hn. unfold entry. rewrite lookup_insert_eq, Ht. cbn.
      apply lookup_insert_ne. intros ->. exact (Hn HS). }
  destruct (t !! name) as [[c|reason|]|]; cbn; try exact Hw.
  apply output_changes_refl.
Qed.

Lemma make_triaged_dir_confined (S : string → Prop) : confined S make_triaged_dir.
Proof.
  intros st. unfold make_triaged_dir. run.
  destruct (fs st !! triaged_dir) as [t|] eqn:Ht.
  - rewrite bool_decide_eq_true_2 by eauto. apply output_changes_refl.
  - rewrite bool_decide_eq_false_2 by (intros [? [=]]). cbn. split; [|split].
    + intros dir Hne. apply lookup_insert_ne. congruence.
    + intros [t' Ht']. rewrite Ht in Ht'. discriminate Ht'.
    + intros name _. unfold entry. rewrite lookup_insert_eq, Ht. reflexivity.
Qed.

Lemma process_entry_confined (w : world) (model : backend) (S : string → Prop)
    (name : string) :
  (is_md name = true → S name) → confined S (process_entry w model name).
Proof.
  intros HS. unfold process_entry. fold (is_md name).
  destruct (is_md name); [|apply confined_quiet, quiet_ret].
  apply confined_bind; [apply confined_quiet; unfold read_text; quiet_steps|].
  intros C. apply confined_bind; [apply confined_quiet, triage_quiet|].
  intros r. apply write_text_confined, HS. reflexivity.
Qed.

(** Processing an entry never touches the input directory. *)
Lemma process_entry_keeps_input (w : world) (model : backend) (name : string)
    (st : state) :
  fs (snd (process_entry w model name st)) !! original_dir = fs st !! original_dir.
Proof.
  destruct (process_entry_confined w model (fun _ => True) name (fun _ => I) st)
    as [H _].
  apply H, dirs_differ.
Qed.

(** ** The batch loop *)

Lemma elem_of_md_names (names : list string) (name : string) :
  name ∈ md_names names ↔ is_md name = true ∧ name ∈ names.
Proof. unfold md_names. rewrite list_elem_of_filter. reflexivity. Qed.

Section Batch.

Variable w : world.
Variable model : backend.

Lemma triage_total (T : string) (st : state) :
  ready w model → ∃ report, fst (triage w model T st) = Ok report.
Proof.
  intros [->|Ht]; [apply triage_ticket_gemini_total|].
  destruct model; [apply triage_ticket_ollama_total, Ht|].
  apply triage_ticket_gemini_total.
Qed.

Lemma process_entry_skip (name : string) (st : state) :
  is_md name = false → process_entry w model name st = (Ok tt, st).
Proof. unfold process_entry, is_md. intros ->. reflexivity. Qed.

(** One ticket: read, triage the text that was read, store the document. *)
Lemma process_entry_md (name C : string) (d t : gmap string node) (st : state) :
  is_md name = true →
  ready w model →
  fs st !! original_dir = Some d →
  fs st !! triaged_dir = Some t →
  d !! name = Some (File C) →
  t !! name ≠ Some Subdir →
  ∃ r st1,
    triage w model C st = (Ok r, st1)
    ∧ process_entry w model name st
      = (Ok tt,
         State (<[triaged_dir := <[name := File (triaged_document C r)]> t]> (fs st))
               (clock st1) (trace st1 ++ [Stored triaged_dir name])).
Proof.
  intros Hmd Hready Hd Ht HC Hw.
  destruct (triage_total C st Hready) as [r Hr].
  destruct (triage_quiet w model C st) as [Hfs _].
  destruct (triage w model C st) as [r' st1] eqn:Htri. cbn in Hr, Hfs. subst r'.
  exists r, st1. split; [reflexivity|].
  unfold process_entry. unfold is_md in Hmd. rewrite Hmd.
  unfold read_text, write_text. run. rewrite Hd, HC, Htri, Hfs, Ht.
  destruct (t !! name) as [[c|reason|]|] eqn:Hn; try reflexivity.
  congruence.
Qed.

(** Conversely, a ticket on which the loop body returned was read, triaged
    and stored. *)
Lemma process_entry_md_inv (name C : string) (d : gmap string node)
    (st st_c : state) :
  is_md name = true →
  fs st !! original_dir = Some d →
  d !! name = Some (File C) →
  process_entry w model name st = (Ok tt, st_c) →
  ∃ r st_b ta,
    triage w model C st = (Ok r, st_b)
    ∧ fs st_b !! triaged_dir = Some ta
    ∧ st_c
      = State (<[triaged_dir := <[name := File (triaged_document C r)]> ta]> (fs st_b))
              (clock st_b) (trace st_b ++ [Stored triaged_dir name]).
Proof.
  intros Hmd Hd HC. unfold process_entry. unfold is_md in Hmd. rewrite Hmd.
  unfold read_text, write_text. run. rewrite Hd, HC.
  destruct (triage w model C st) as [[r|e] st_b]; [|intros H; discriminate H].
  destruct (fs st_b !! triaged_dir) as [ta|] eqn:Hta; [|intros H; discriminate H].
  destruct (ta !! name) as [[c|reason|]|]; try (intros H; discriminate H);
    intros [= <-]; exists r, st_b, ta; repeat split; exact Hta.
Qed.

(** The loop, from any state in which both directories exist. *)
Lemma for_process_entries (names : list string) :
  ∀ (st : state) (d t : gmap string node),
    ready w model →
    fs st !! original_dir = Some d →
    fs st !! triaged_dir = Some t →
    (∀ name, name ∈ names → is_md name = true → ∃ C, d !! name = Some (File C)) →
    (∀ name, name ∈ names → is_md name = true → t !! name ≠ Some Subdir) →
    ∃ st' t' evs,
      for_ names (process_entry w model) st = (Ok tt, st')
      ∧ fs st' = <[triaged_dir := t']> (fs st)
      ∧ trace st' = trace st ++ evs
      ∧ stored evs = (fun name => (triaged_dir, name)) <$> md_names names
      ∧ (∀ name, name ∉ md_names names → t' !! name = t !! name)
      ∧ (∀ name, name ∈ md_names names →
           ∃ C r st_a st_b,
             d !! name = Some (File C)
             ∧ triage w model C st_a = (Ok r, st_b)
             ∧ trace st `prefix_of` trace st_a
             ∧ trace st_b `prefix_of` trace st'
             ∧ t' !! name = Some (File (triaged_document C r))).
Proof.
  induction names as [|name names IH]; intros st d t Hready Hd Ht Hin Hout.
  - exists st, t, []. cbn. rewrite app_nil_r.
    repeat split; try done.
    + symmetry. apply insert_id, Ht.
    + intros name Hn. apply elem_of_nil in Hn as [].
  - cbn [for_]. rewrite bind_run.
    destruct (is_md name) eqn:Hmd.
    + (* a ticket *)
      destruct (Hin name) as [C He]; [left|exact Hmd|].
      assert (t !! name ≠ Some Subdir) as Hw by (apply Hout; [left|exact Hmd]).
      destruct (process_entry_md name C d t st Hmd Hready Hd Ht He Hw)
        as (r & st1 & Htri & ->).
      destruct (triage_quiet w model C st) as (_ & evs_t & Htr & Hst & _).
      rewrite Htri in Htr. cbn in Htr.
      set (t1 := <[name := File (triaged_document C r)]> t).
      set (st1' := State (<[triaged_dir := t1]> (fs st)) (clock st1)
                     (trace st1 ++ [Stored triaged_dir name])).
      destruct (IH st1' d t1) as (st' & t' & evs & Hrun & Hfs & Htrace & Hstored & Hsame & Hnew).
      * exact Hready.
      * cbn. rewrite lookup_insert_ne; [exact Hd|]. intros H. symmetry in H.
        exact (dirs_differ H).
      * cbn. apply lookup_insert_eq.
      * intros n Hn. apply Hin. right. exact Hn.
      * intros n Hn Hm. unfold t1.
        destruct (decide (name = n)) as [->|Hne].
        -- rewrite lookup_insert_eq. discriminate.
        -- rewrite lookup_insert_ne by exact Hne. apply Hout; [right|]; assumption.
      * exists st', t', (evs_t ++ [Stored triaged_dir name] ++ evs).
        assert (md_names (name :: names) = name :: md_names names) as Hmds.
        { unfold md_names. rewrite filter_cons_True; [reflexivity|exact Hmd]. }
        rewrite Hmds.
        split; [exact Hrun|]. split.
        { rewrite Hfs. cbn. apply insert_insert_eq. }
        split.
        { rewrite Htrace. cbn. rewrite Htr. rewrite <- !app_assoc. reflexivity. }
        split.
        { unfold stored in *. rewrite !omap_app, Hst, Hstored. reflexivity. }
        split.
        { intros n Hn. apply not_elem_of_cons in Hn as [Hne Hn].
          rewrite (Hsame n Hn). unfold t1. apply lookup_insert_ne. congruence. }
        intros n Hn.
        destruct (decide (n ∈ md_names names)) as [Hin'|Hnin].
        -- destruct (Hnew n Hin') as (C' & r' & st_a & st_b & HC' & Htri' & Hp1 & Hp2 & Hl).
           exists C', r', st_a, st_b. repeat split; try assumption.
           etrans; [|exact Hp1]. cbn. rewrite Htr.
           rewrite <- app_assoc. apply prefix_app_r. reflexivity.
        -- apply elem_of_cons in Hn as [->|Hn]; [|contradiction].
           exists C, r, st, st1. repeat split; try assumption.
           ++ reflexivity.
           ++ rewrite Htrace. cbn. rewrite <- app_assoc. apply prefix_app_r.
              reflexivity.
           ++ rewrite (Hsame name Hnin). unfold t1. apply lookup_insert_eq.
    + (* not a ticket *)
      rewrite (process_entry_skip name st Hmd).
      destruct (IH st d t Hready Hd Ht) as (st' & t' & evs & H).
      { intros n Hn. apply Hin. right. exact Hn. }
      { intros n Hn. apply Hout. right. exact Hn. }
      assert (md_names (name :: names) = md_names names) as ->.
      { unfold md_names. rewrite filter_cons_False; [reflexivity|]. congruence. }
      exists st', t', evs. exact H.
Qed.

(** A loop that completed has read every ticket it was given: each one is
    a regular file that holds text. *)
Lemma for_process_entries_read (names : list string) :
  ∀ (st st' : state) (d : gmap string node),
    fs st !! original_dir = Some d →
    for_ names (process_entry w model) st = (Ok tt, st') →
    ∀ name, name ∈ names → is_md name = true → ∃ C, d !! name = Some (File C).
Proof.
  induction names as [|x names IH]; intros st st' d Hd Hrun name Hin Hmd.
  - apply elem_of_nil in Hin as [].
  - cbn [for_] in Hrun. rewrite bind_run in Hrun.
    pose proof (process_entry_keeps_input w model x st) as Hkeep.
    destruct (process_entry w model x st) as [[[]|e] st1] eqn:Hx; [|discriminate].
    apply elem_of_cons in Hin as [->|Hin].
    + revert Hx. unfold process_entry. unfold is_md in Hmd. rewrite Hmd.
      unfold read_text. run. rewrite Hd.
      destruct (d !! x) as [[C|reason|]|]; try (intros H; discriminate H).
      eauto.
    + apply (IH st1 st' d); try assumption. cbn in Hkeep. rewrite Hkeep. exact Hd.
Qed.

End Batch.

Lemma listdir_names (w : world) (d : gmap string node) (name : string) :
  listdir_sound w d → name ∈ os_listdir w d ↔ is_Some (d !! name).
Proof.
  intros Hl. unfold listdir_sound in Hl. rewrite Hl, elem_of_elements.
  apply elem_of_dom.
Qed.

Lemma md_names_listing (w : world) (d : gmap string node) :
  listdir_sound w d → md_names (os_listdir w d) ≡ₚ md_names (elements (dom d)).
Proof. intros Hl. unfold md_names. rewrite Hl. reflexivity. Qed.

Lemma batch_loop_unfold (w : world) (model : backend) (d : gmap string node)
    (st : state) :
  fs st !! original_dir = Some d →
  batch_loop w model st = for_ (os_listdir w d) (process_entry w model) st.
Proof. intros Hd. unfold batch_loop, listdir. run. rewrite Hd. reflexivity. Qed.


(** Directories that hold regular files only meet the layout conditions. *)
Lemma only_files_md (d : gmap string node) :
  map_Forall (fun _ e => is_file e = true) d → md_entries_are_files d.
Proof. intros H name _ Hn. apply H in Hn. discriminate. Qed.

Lemma only_files_writable (d t : gmap string node) :
  map_Forall (fun _ e => is_file e = true) t → outputs_writable d t.
Proof. intros H name _ _ Hn. apply H in Hn. discriminate. Qed.

Lemma only_texts_readable (d : gmap string node) :
  map_Forall (fun _ e => is_text e = true) d → md_entries_readable d.
Proof.
  intros H name e _ Hn. apply H in Hn. destruct e; [eauto|discriminate..].
Qed.

Ltac only_files :=
  repeat (apply map_Forall_insert_2; [reflexivity|]);
  first [apply map_Forall_empty | apply map_Forall_singleton; reflexivity].




(** C5. Take any ticket [name] of the input directory, a regular file with
    content [C], and let the loop have completed the entries listed before
    it, leaving the state [st_a].

    If the ticket is processed, that is, if the loop body returns normally
    on it, then the runner has called the selected adapter,
    [triage_ticket_ollama] or [triage_ticket_gemini], on [C] itself in
    that state; with [r] the report the adapter returned and [st_b] the
    state it left, processing the ticket was that call followed by one
    store, which put [C], the status block, the triage separator and [r]
    under [name] in the output directory, whatever was there before; and
    that text is still what the output directory holds under [name] when
    the loop ends, however it ends.

    And the ticket is processed whenever the backend can be called and the
    output directory exists without a subdirectory named [name]. *)
Theorem batch_loop_document
    (w : world) (model : backend) (st st_a : state) (d : gmap string node)
    (pre post : list string) (name C : string) :
  fs st !! original_dir = Some d →
  listdir_sound w d →
  os_listdir w d = pre ++ name :: post →
  for_ pre (process_entry w model) st = (Ok tt, st_a) →
  is_md name = true →
  d !! name = Some (File C) →
  (∀ st_c,
     process_entry w model name st_a = (Ok tt, st_c) →
     ∃ r st_b ta,
       match model with
       | ollama => triage_ticket_ollama w C st_a
       | gemini => triage_ticket_gemini w C st_a
       end = (Ok r, st_b)
       ∧ fs st_b !! triaged_dir = Some ta
       ∧ st_c
         = State (<[triaged_dir :=
                      <[name := File (C
                                      +:+ (PyStr.nl +:+ PyStr.nl +:+ "---" +:+ PyStr.nl
                                           +:+ PyStr.nl +:+ "**Status:** new")
                                      +:+ (PyStr.nl +:+ PyStr.nl +:+ "---" +:+ PyStr.nl
                                           +:+ PyStr.nl +:+ "## Triage" +:+ PyStr.nl
                                           +:+ PyStr.nl)
                                      +:+ r)]> ta]> (fs st_b))
                 (clock st_b) (trace st_b ++ [Stored triaged_dir name])
       ∧ entry (fs (snd (batch_loop w model st))) triaged_dir name
         = Some (File (C
                       +:+ (PyStr.nl +:+ PyStr.nl +:+ "---" +:+ PyStr.nl +:+ PyStr.nl
                            +:+ "**Status:** new")
                       +:+ (PyStr.nl +:+ PyStr.nl +:+ "---" +:+ PyStr.nl +:+ PyStr.nl
                            +:+ "## Triage" +:+ PyStr.nl +:+ PyStr.nl)
                       +:+ r)))
  ∧ (ready w model →
     ∀ t, fs st !! triaged_dir = Some t →
          t !! name ≠ Some Subdir →
          ∃ st_c, process_entry w model name st_a = (Ok tt, st_c)).
Proof.
  intros Hd Hl Hlist Hpre Hmd HC.
  assert (NoDup (pre ++ name :: post)) as Hnd.
  { rewrite <- Hlist. unfold listdir_sound in Hl. rewrite Hl. apply NoDup_elements. }
  apply NoDup_app in Hnd as (_ & Hfresh & Hnd'). apply NoDup_cons in Hnd' as [Hpost _].
  assert (name ∉ pre) as Hnpre.
  { intros Hin. apply (Hfresh name Hin). left. }
  (* the state the loop reaches before the ticket *)
  pose proof (confined_for_ (fun _ => True) pre (process_entry w model)
                (fun x _ => process_entry_confined w model _ x (fun _ => I)) st)
    as (Hdir & Hex & _).
  rewrite Hpre in Hdir, Hex. cbn [snd] in Hdir, Hex.
  assert (fs st_a !! original_dir = Some d) as Hd_a.
  { rewrite Hdir; [exact Hd|exact dirs_differ]. }
  pose proof (for_process_entries_other w model pre name st Hnpre) as Hother.
  rewrite Hpre in Hother. cbn [snd] in Hother.
  assert (∀ r, triaged_document C r
               = C +:+ (PyStr.nl +:+ PyStr.nl +:+ "---" +:+ PyStr.nl +:+ PyStr.nl
                        +:+ "**Status:** new")
                   +:+ (PyStr.nl +:+ PyStr.nl +:+ "---" +:+ PyStr.nl +:+ PyStr.nl
                        +:+ "## Triage" +:+ PyStr.nl +:+ PyStr.nl)
                   +:+ r) as Hdoc.
  { intros r. unfold triaged_document. rewrite append_assoc. reflexivity. }
  split.
  - (* a processed ticket *)
    intros st_c Hproc.
    destruct (process_entry_md_inv w model name C d st_a st_c Hmd Hd_a HC Hproc)
      as (r & st_b & ta & Htri & Hta & Hst_c).
    exists r, st_b, ta. rewrite <- Hdoc.
    split; [destruct model; exact Htri|].
    split; [exact Hta|]. split; [exact Hst_c|].
    rewrite (batch_loop_unfold w model d st Hd), Hlist, for_app, bind_run, Hpre.
    cbn [for_]. rewrite bind_run, Hproc.
    rewrite (for_process_entries_other w model post name st_c Hpost), Hst_c.
    unfold entry. cbn [fs]. rewrite lookup_insert_eq. cbn.
    apply lookup_insert_eq.
  - (* when a ticket is processed *)
    intros Hready t Ht Hw.
    destruct Hex as [ta Hta]; [eauto|].
    assert (ta !! name ≠ Some Subdir) as Hw_a.
    { unfold entry in Hother. rewrite Hta, Ht in Hother. cbn in Hother.
      rewrite Hother. exact Hw. }
    destruct (process_entry_md w model name C d ta st_a Hmd Hready Hd_a Hta HC Hw_a)
      as (r & st_b & _ & Hproc).
    eauto.
Qed.

Lemma batch_loop_document_witness :
  let st_a := snd (for_ ["notes.txt"; "vpn.md"]
                     (process_entry Examples.steady gemini)
                     Examples.inbox_with_outputs) in
  (∀ st_c,
     process_entry Examples.steady gemini "printer.md" st_a = (Ok tt, st_c) →
     ∃ r st_b ta,
       triage_ticket_gemini Examples.steady "My printer is on fire." st_a = (Ok r, st_b)
       ∧ fs st_b !! triaged_dir = Some ta
       ∧ st_c
         = State (<[triaged_dir :=
                      <["printer.md" :=
                          File ("My printer is on fire."
                                +:+ (PyStr.nl +:+ PyStr.nl +:+ "---" +:+ PyStr.nl
                                     +:+ PyStr.nl +:+ "**Status:** new")
                                +:+ (PyStr.nl +:+ PyStr.nl +:+ "---" +:+ PyStr.nl
                                     +:+ PyStr.nl +:+ "## Triage" +:+ PyStr.nl
                                     +:+ PyStr.nl)
                                +:+ r)]> ta]> (fs st_b))
                 (clock st_b) (trace st_b ++ [Stored triaged_dir "printer.md"])
       ∧ entry (fs (snd (batch_loop Examples.steady gemini
                           Examples.inbox_with_outputs)))
           triaged_dir "printer.md"
         = Some (File ("My printer is on fire."
                       +:+ (PyStr.nl +:+ PyStr.nl +:+ "---" +:+ PyStr.nl +:+ PyStr.nl
                            +:+ "**Status:** new")
                       +:+ (PyStr.nl +:+ PyStr.nl +:+ "---" +:+ PyStr.nl +:+ PyStr.nl
                            +:+ "## Triage" +:+ PyStr.nl +:+ PyStr.nl)
                       +:+ r)))
  ∧ (ready Examples.steady gemini →
     ∀ t, fs Examples.inbox_with_outputs !! triaged_dir = Some t →
          t !! "printer.md" ≠ Some Subdir →
          ∃ st_c, process_entry Examples.steady gemini "printer.md" st_a = (Ok tt, st_c)).
Proof.
  apply (batch_loop_document Examples.steady gemini Examples.inbox_with_outputs
           (snd (for_ ["notes.txt"; "vpn.md"]
                   (process_entry Examples.steady gemini)
                   Examples.inbox_with_outputs))
           Examples.tickets
           ["notes.txt"; "vpn.md"] [] "printer.md" "My printer is on fire.").
  - reflexivity.
  - unfold listdir_sound. reflexivity.
  - vm_compute. reflexivity.
  - vm_compute. reflexivity.
  - reflexivity.
  - reflexivity.
Defined.

(** What the example run leaves in the output directory. *)
Example batch_loop_on_inbox :
  (fs (snd (main Examples.steady ollama Examples.inbox)) !! triaged_dir)
  = Some {[ "printer.md" :=
              File ("My printer is on fire." +:+ status_block +:+ triage_separator
                    +:+ "Urgency: High");
            "vpn.md" :=
              File ("VPN drops every hour." +:+ status_block +:+ triage_separator
                    +:+ "Urgency: High") ]}.
Proof. vm_compute. reflexivity. Qed.

(** ** The whole run, and running it again *)

Section Main.

Variable w : world.
Variable model : backend.

Lemma check_backend_quiet : quiet (check_backend w model).
Proof.
  unfold check_backend. destruct model; [|apply quiet_ret].
  destruct (negb _); [apply quiet_raise|apply ensure_quiet].
Qed.

Lemma check_backend_ready (st st' : state) :
  check_backend w model st = (Ok tt, st') → ready w model.
Proof.
  unfold check_backend, ready. destruct model; [|auto].
  destruct (PyStr.truthy (os_getenv w "OLLAMA_MODEL")); [auto|].
  cbn. discriminate.
Qed.

(** A successful preparation means the backend can be called, and the file
    system differs at most by a new, empty output directory. *)
Lemma prepare_ok (st st' : state) :
  prepare w model st = (Ok tt, st') →
  ready w model
  ∧ fs st' = match fs st !! triaged_dir with
             | Some _ => fs st
             | None => <[triaged_dir := ∅]> (fs st)
             end.
Proof.
  unfold prepare. rewrite bind_run.
  destruct (check_backend_quiet st) as [Hfs _].
  destruct (check_backend w model st) as [[[]|e] stc] eqn:Hc; [|discriminate].
  cbn in Hfs. intros H. split; [eapply check_backend_ready, Hc|].
  revert H. unfold make_triaged_dir. run. rewrite Hfs.
  destruct (fs st !! triaged_dir) as [t|] eqn:Ht.
  - rewrite bool_decide_eq_true_2 by eauto. intros [= <-]. exact Hfs.
  - rewrite bool_decide_eq_false_2 by (intros [? [=]]). intros [= <-].
    reflexivity.
Qed.

(** When the output directory exists, preparing changes no file. *)
Lemma prepare_existing (st : state) :
  is_Some (fs st !! triaged_dir) → fs (snd (prepare w model st)) = fs st.
Proof.
  intros Ht. unfold prepare. rewrite bind_run.
  destruct (check_backend_quiet st) as [Hfs _].
  destruct (check_backend w model st) as [[[]|e] stc]; cbn in Hfs; [|exact Hfs].
  unfold make_triaged_dir. run. rewrite Hfs.
  rewrite bool_decide_eq_true_2 by exact Ht. exact Hfs.
Qed.

(** With services that answer a request the same way at all times, the
    report for a ticket does not depend on when it is asked for. *)
Lemma triage_stationary (T : string) (st st' : state) :
  stationary_backends w →
  fst (triage w model T st) = fst (triage w model T st').
Proof.
  intros Hs. destruct model; unfold triage, triage_ticket_ollama, triage_ticket_gemini.
  - destruct (negb _); run; [reflexivity|].
    destruct (Hs (clock st) (clock st')) as (_ & _ & -> & _ & _).
    destruct (ollama_chat w (clock st') _ _); reflexivity.
  - run.
    destruct (Hs (clock st) (clock st')) as (_ & _ & _ & -> & ->).
    destruct (genai_Client w (clock st')); run; [|reflexivity].
    destruct (generate_content w (clock st') _ _); reflexivity.
Qed.

End Main.

(** After a completed run, a further run changes no file, wherever it
    stops; it completes as soon as its own preparation does. *)
Lemma rerun_leaves_files
    (w : world) (model : backend) (st0 st1 : state) (d : gmap string node) :
  stationary_backends w →
  fs st0 !! original_dir = Some d →
  listdir_sound w d →
  md_entries_are_files d →
  outputs_writable d (default ∅ (fs st0 !! triaged_dir)) →
  main w model st0 = (Ok tt, st1) →
  fs (snd (main w model st1)) = fs st1
  ∧ (fst (prepare w model st1) = Ok tt → fst (main w model st1) = Ok tt).
Proof.
  intros Hstat Hd Hl Hfiles Hout Hmain.
  unfold main in Hmain. rewrite bind_run in Hmain.
  destruct (prepare w model st0) as [[[]|e] st0'] eqn:Hprep; [|discriminate].
  destruct (prepare_ok w model st0 st0' Hprep) as [Hready Hfs0].
  set (t0 := default ∅ (fs st0 !! triaged_dir)) in *.
  assert (fs st0' !! original_dir = Some d) as Hd0.
  { rewrite Hfs0. destruct (fs st0 !! triaged_dir); [exact Hd|].
    rewrite lookup_insert_ne; [exact Hd|]. intros H. symmetry in H.
    exact (dirs_differ H). }
  assert (fs st0' !! triaged_dir = Some t0) as Ht0.
  { rewrite Hfs0. unfold t0. destruct (fs st0 !! triaged_dir) eqn:E; [exact E|].
    apply lookup_insert_eq. }
  set (names := os_listdir w d).
  rewrite (batch_loop_unfold w model d st0' Hd0) in Hmain. fold names in Hmain.
  (* the first run completed, so it has read every ticket *)
  pose proof (for_process_entries_read w model names st0' st1 d Hd0 Hmain) as Hread.
  assert (∀ name, name ∈ names → is_md name = true → t0 !! name ≠ Some Subdir)
    as Hwrite.
  { intros name Hn Hmd. apply Hout; [exact Hmd|].
    apply (listdir_names w d name Hl), Hn. }
  destruct (for_process_entries w model names st0' d t0)
    as (st1x & t1 & evs1 & Hrun1 & Hfs1 & _ & _ & Hsame1 & Hnew1); try assumption.
  rewrite Hrun1 in Hmain. injection Hmain as ->.
  assert (fs st1 !! triaged_dir = Some t1) as Ht1
    by (rewrite Hfs1; apply lookup_insert_eq).
  assert (fs st1 !! original_dir = Some d) as Hd1.
  { rewrite Hfs1, lookup_insert_ne; [exact Hd0|]. intros H. symmetry in H.
    exact (dirs_differ H). }
  (* the second run *)
  pose proof (prepare_existing w model st1 (ex_intro _ t1 Ht1)) as Hfs1'.
  unfold main. rewrite bind_run.
  destruct (prepare w model st1) as [[[]|e] st1'] eqn:Hprep2; cbn in Hfs1';
    [|split; [exact Hfs1'|discriminate]].
  rewrite (batch_loop_unfold w model d st1') by (rewrite Hfs1'; exact Hd1).
  fold names.
  destruct (for_process_entries w model names st1' d t1)
    as (st2 & t2 & evs2 & Hrun2 & Hfs2 & _ & _ & Hsame2 & Hnew2); try assumption.
  { rewrite Hfs1'. exact Hd1. }
  { rewrite Hfs1'. exact Ht1. }
  { intros name Hin Hmd.
    destruct (Hnew1 name) as (C & r & _ & _ & _ & _ & _ & _ & ->); [|discriminate].
    apply elem_of_md_names. split; [exact Hmd|exact Hin]. }
  rewrite Hrun2. cbn [fst snd]. split; [|reflexivity].
  assert (t2 = t1) as ->.
  { apply map_eq. intros name.
    destruct (decide (name ∈ md_names names)) as [Hin|Hnin].
    - destruct (Hnew1 name Hin) as (C1 & r1 & a1 & b1 & HC1 & Htri1 & _ & _ & ->).
      destruct (Hnew2 name Hin) as (C2 & r2 & a2 & b2 & HC2 & Htri2 & _ & _ & ->).
      assert (C2 = C1) as -> by congruence.
      pose proof (triage_stationary w model C1 a1 a2 Hstat) as Heq.
      rewrite Htri1, Htri2 in Heq. cbn in Heq. congruence.
    - apply Hsame2, Hnin. }
  rewrite Hfs2, Hfs1'. apply insert_id, Ht1.
Qed.

(** A preparation that succeeded once succeeds again. *)
Lemma prepare_again (w : world) (model : backend) (st0 st0' st1 : state) :
  stationary_backends w →
  prepare w model st0 = (Ok tt, st0') →
  fst (prepare w model st1) = Ok tt.
Proof.
  intros Hstat. unfold prepare. rewrite !bind_run.
  pose proof (check_backend_stationary w Hstat model st0 st1) as Hc.
  destruct (check_backend w model st0) as [[[]|e] sa]; [|discriminate].
  destruct (check_backend w model st1) as [[[]|e] sb]; cbn in Hc; [|discriminate].
  intros _. unfold make_triaged_dir. run.
  destruct (bool_decide _); reflexivity.
Qed.




(** The loop's preconditions are what a successful preparation leaves:
    once [prepare] has returned and the tickets are readable, the whole
    program completes whatever the inference service answers, and stores
    one file per ticket. *)
Lemma main_one_output_per_ticket
    (w : world) (model : backend) (st st0 : state) (d : gmap string node) :
  fs st !! original_dir = Some d →
  listdir_sound w d →
  md_entries_readable d →
  outputs_writable d (default ∅ (fs st !! triaged_dir)) →
  prepare w model st = (Ok tt, st0) →
  ∃ st' evs,
    main w model st = (Ok tt, st')
    ∧ trace st' = trace st0 ++ evs
    ∧ stored evs ≡ₚ (fun name => (triaged_dir, name)) <$> md_names (elements (dom d)).
Proof.
  intros Hd Hl Hfiles Hout Hprep.
  destruct (prepare_ok w model st st0 Hprep) as [Hready Hfs0].
  set (t0 := default ∅ (fs st !! triaged_dir)) in *.
  assert (fs st0 !! original_dir = Some d) as Hd0.
  { rewrite Hfs0. destruct (fs st !! triaged_dir); [exact Hd|].
    rewrite lookup_insert_ne; [exact Hd|]. intros H. symmetry in H.
    exact (dirs_differ H). }
  assert (fs st0 !! triaged_dir = Some t0) as Ht0.
  { rewrite Hfs0. unfold t0. destruct (fs st !! triaged_dir) eqn:E; [exact E|].
    apply lookup_insert_eq. }
  destruct (for_process_entries w model (os_listdir w d) st0 d t0)
    as (st' & t' & evs & Hrun & _ & Htr & Hst & _); try assumption.
  { intros name Hn Hmd. apply (listdir_names w d name Hl) in Hn as [e He].
    destruct (Hfiles name e Hmd He) as [C ->]. eauto. }
  { intros name Hn Hmd. apply Hout; [exact Hmd|].
    apply (listdir_names w d name Hl), Hn. }
  exists st', evs. unfold main.
  rewrite bind_run, Hprep, (batch_loop_unfold w model d st0 Hd0).
  split; [exact Hrun|]. split; [exact Htr|].
  rewrite Hst, (md_names_listing w d Hl). reflexivity.
Qed.

(** With both services down every ticket still gets its document; the
    report slot holds the contained error. *)
Example main_with_services_down :
  let st' := snd (main Examples.down gemini Examples.inbox) in
  fst (main Examples.down gemini Examples.inbox) = Ok tt
  ∧ fs st' !! triaged_dir
    = Some {[ "printer.md" :=
                File ("My printer is on fire." +:+ status_block +:+ triage_separator
                      +:+ "Error during Gemini triage: Gemini API is down");
              "vpn.md" :=
                File ("VPN drops every hour." +:+ status_block +:+ triage_separator
                      +:+ "Error during Gemini triage: Gemini API is down") ]}.
Proof. cbv zeta. split; vm_compute; reflexivity. Qed.

(** Without [OLLAMA_MODEL] the run with the local backend stops before it
    touches anything. *)
Example main_without_model :
  main Examples.unconfigured ollama Examples.inbox
  = (Raise (Exn ValueError
              "OLLAMA_MODEL environment variable not set for the ollama model."),
     Examples.inbox).
Proof. reflexivity. Qed.

(** ** The cleanup utility *)

Lemma list_filter_bool {A} (f : A → bool) (l : list A) :
  List.filter f l = filter (fun x => f x = true) l.
Proof.
  induction l as [|x l IH]; [reflexivity|]. cbn [List.filter].
  rewrite filter_cons. destruct (f x) eqn:Hx; case_decide; congruence.
Qed.

Section Clean.

Variable w : world.

Lemma os_remove_file (name : string) (e : node) (t : gmap string node) (st : state) :
  fs st !! triaged_dir = Some t →
  t !! name = Some e →
  is_file e = true →
  os_remove triaged_dir name st
  = (Ok tt,
     State (<[triaged_dir := delete name t]> (fs st)) (clock st)
       (trace st ++ [Removed triaged_dir name])).
Proof.
  intros Ht Hn He. unfold os_remove. run. rewrite Ht, Hn.
  destruct e; [reflexivity..|discriminate He].
Qed.

(** Removing a list of distinct regular files, one after the other. *)
Lemma for_os_remove (names : list string) :
  ∀ (st : state) (t : gmap string node),
    NoDup names →
    fs st !! triaged_dir = Some t →
    (∀ name, name ∈ names → ∃ e, t !! name = Some e ∧ is_file e = true) →
    ∃ st' t',
      for_ names (os_remove triaged_dir) st = (Ok tt, st')
      ∧ fs st' = <[triaged_dir := t']> (fs st)
      ∧ trace st' = trace st ++ (Removed triaged_dir <$> names)
      ∧ (∀ name, name ∈ names → t' !! name = None)
      ∧ (∀ name, name ∉ names → t' !! name = t !! name).
Proof.
  induction names as [|name names IH]; intros st t Hnd Ht Hfiles.
  - exists st, t. cbn. rewrite app_nil_r. repeat split; try done.
    + symmetry. apply insert_id, Ht.
    + intros name Hn. apply elem_of_nil in Hn as [].
  - apply NoDup_cons in Hnd as [Hfresh Hnd].
    destruct (Hfiles name) as (e & Hc & He); [left|].
    cbn [for_]. rewrite bind_run, (os_remove_file name e t st Ht Hc He).
    set (st1 := State _ _ _).
    destruct (IH st1 (delete name t) Hnd) as (st' & t' & Hrun & Hfs & Htr & Hgone & Hkept).
    { apply lookup_insert_eq. }
    { intros n Hn. destruct (Hfiles n) as (e' & Hc' & He'); [right; exact Hn|].
      exists e'. split; [|exact He'].
      rewrite lookup_delete_ne; [exact Hc'|]. intros ->. contradiction. }
    exists st', t'. split; [exact Hrun|]. split.
    { rewrite Hfs. apply insert_insert_eq. }
    split.
    { rewrite Htr. cbn. rewrite <- app_assoc. reflexivity. }
    split.
    + intros n Hn. destruct (decide (n ∈ names)) as [Hin|Hnin]; [auto|].
      apply elem_of_cons in Hn as [->|Hn]; [|contradiction].
      rewrite (Hkept name Hnin). apply lookup_delete_eq.
    + intros n Hn. apply not_elem_of_cons in Hn as [Hne Hn].
      rewrite (Hkept n Hn). apply lookup_delete_ne. congruence.
Qed.

(** What the cleanup does when the output directory holds regular files
    only: it completes; the directory is still there; every file whose name
    does not start with a dot is gone, every file whose name does is left;
    nothing is removed but entries of that directory, and no other
    directory changes. *)
Lemma clean_triaged_directory_files (st : state) (t : gmap string node) :
  fs st !! triaged_dir = Some t →
  listdir_sound w t →
  map_Forall (fun _ e => is_file e = true) t →
  ∃ st' t',
    clean_triaged_directory w st = (Ok tt, st')
    ∧ fs st' = <[triaged_dir := t']> (fs st)
    ∧ (∀ name, t' !! name = if hidden name then t !! name else None)
    ∧ (∀ dir name, (dir, name) ∈ removed (trace st') →
         (dir, name) ∈ removed (trace st)
         ∨ (dir = triaged_dir ∧ is_Some (t !! name))).
Proof.
  intros Ht Hl Hfiles.
  set (names := List.filter (fun name => negb (PyStr.startswith name ".")) (os_listdir w t)).
  assert (∀ name, name ∈ names ↔ hidden name = false ∧ is_Some (t !! name)) as Hnames.
  { intros name. unfold names. rewrite list_filter_bool, list_elem_of_filter.
    rewrite (listdir_names w t name Hl). unfold hidden.
    destruct (PyStr.startswith name "."); cbn; intuition congruence. }
  destruct (for_os_remove names st t) as (st' & t' & Hrun & Hfs & Htr & Hgone & Hkept).
  { unfold names. rewrite list_filter_bool. apply NoDup_filter.
    unfold listdir_sound in Hl. rewrite Hl. apply NoDup_elements. }
  { exact Ht. }
  { intros name Hn. apply Hnames in Hn as [_ [e He]].
    exists e. split; [exact He|exact (Hfiles name e He)]. }
  exists (State (fs st') (clock st')
            (trace st' ++ [Printed "Cleaned the 'tickets-triaged' directory."])), t'.
  split.
  { unfold clean_triaged_directory, glob_star. run. rewrite Ht. fold names.
    rewrite Hrun. reflexivity. }
  split; [exact Hfs|]. split.
  - intros name. destruct (hidden name) eqn:Hh.
    + apply Hkept. rewrite Hnames. intros [H _]. congruence.
    + destruct (t !! name) as [e|] eqn:He.
      * apply Hgone, Hnames. eauto.
      * rewrite Hkept; [exact He|]. rewrite Hnames. intros [_ [e He']]. congruence.
  - intros dir name. cbn [trace]. rewrite Htr. unfold removed.
    rewrite !omap_app. cbn [omap]. rewrite app_nil_r, elem_of_app.
    intros [H|H]; [left; exact H|right].
    apply list_elem_of_omap in H as (ev & Hev & Heq).
    apply list_elem_of_fmap in Hev as (n & -> & Hn). injection Heq as <- <-.
    split; [reflexivity|]. apply Hnames, Hn.
Qed.

End Clean.

(** C8, where the code departs from it.  The output directory holds two
    regular files, one of them named with a leading dot (the name [main]
    gives to the triaged form of a ticket so named).  The cleanup completes
    and the directory is still there, but it is not empty: the pattern ['*']
    does not match the dotted name, so that file is never removed. *)
Theorem clean_leaves_dotted_file :
  fst (clean_triaged_directory Examples.steady Examples.dotted_outputs) = Ok tt
  ∧ fs (snd (clean_triaged_directory Examples.steady Examples.dotted_outputs))
      !! triaged_dir
    = Some {[ ".draft.md" := File "triaged too" ]}
  ∧ removed (trace (snd (clean_triaged_directory Examples.steady
                           Examples.dotted_outputs)))
    = [(triaged_dir, "printer.md")]
  ∧ fs (snd (clean_triaged_directory Examples.steady Examples.dotted_outputs))
      !! original_dir
    = fs Examples.dotted_outputs !! original_dir.
Proof. repeat split; vm_compute; reflexivity. Qed.

(** The dotted output is one the program writes itself: a ticket named
    [.draft.md] is triaged like any other, and survives the cleanup. *)
Example main_then_clean_keeps_dotted_ticket :
  let st0 := State {[ "tickets-original" :=
                        {[ ".draft.md" := File "Draft: screen flickers." ]} ]} 0 [] in
  let st1 := snd (main Examples.steady gemini st0) in
  let st2 := snd (clean_triaged_directory Examples.steady st1) in
  dom <$> (fs st1 !! triaged_dir) = Some ({[ ".draft.md" ]} : gset string)
  ∧ dom <$> (fs st2 !! triaged_dir) = Some ({[ ".draft.md" ]} : gset string).
Proof. cbv zeta. split; vm_compute; reflexivity. Qed.

(** A subdirectory of the output directory is not entered: [os.remove]
    refuses it, the cleanup stops there and the subdirectory stays. *)
Example clean_stops_at_subdirectory :
  let st0 := State {[ "tickets-triaged" := {[ "archive" := Subdir ]} ]} 0 [] in
  clean_triaged_directory Examples.steady st0
  = (Raise (Exn IsADirectoryError
              "[Errno 21] Is a directory: 'tickets-triaged/archive'"), st0).
Proof. cbv zeta. vm_compute. reflexivity. Qed.

(** * Further properties of the program *)

(** ** What a run may emit *)

Section Emits.

Context {A B : Type} (P : event → Prop).

Lemma emits_ret (a : A) : emits_only P (ret a).
Proof. intros st. exists []. by rewrite app_nil_r. Qed.

Lemma emits_raise (e : exn) : emits_only P (@raise A e).
Proof. intros st. exists []. by rewrite app_nil_r. Qed.

Lemma emits_lift (r : result A) : emits_only P (lift r).
Proof. intros st. exists []. by rewrite app_nil_r. Qed.

Lemma emits_bind (m : M A) (k : A → M B) :
  emits_only P m → (∀ a, emits_only P (k a)) → emits_only P (bind m k).
Proof.
  intros Hm Hk st. unfold bind. destruct (Hm st) as (evs & Htr & Hev).
  destruct (m st) as [[a|e] st1]; cbn in *.
  - destruct (Hk a st1) as (evs' & Htr' & Hev'). exists (evs ++ evs').
    rewrite Htr', Htr, app_assoc. split; [reflexivity|].
    apply Forall_app; auto.
  - exists evs. auto.
Qed.

Lemma emits_try_except (m : M A) (catches : exn → bool) (h : exn → M A) :
  emits_only P m → (∀ e, emits_only P (h e)) → emits_only P (try_except m catches h).
Proof.
  intros Hm Hh st. unfold try_except. destruct (Hm st) as (evs & Htr & Hev).
  destruct (m st) as [[a|e] st1]; cbn in *; [exists evs; auto|].
  destruct (catches e); [|exists evs; auto].
  destruct (Hh e st1) as (evs' & Htr' & Hev'). exists (evs ++ evs').
  rewrite Htr', Htr, app_assoc. split; [reflexivity|]. apply Forall_app; auto.
Qed.

End Emits.

Lemma emits_get_state (P : event → Prop) : emits_only P get_state.
Proof. intros st. exists []. by rewrite app_nil_r. Qed.

Lemma emits_tick (P : event → Prop) : emits_only P tick.
Proof. intros st. exists []. by rewrite app_nil_r. Qed.

Lemma emits_put_fs (P : event → Prop) (f : gmap string (gmap string node)) :
  emits_only P (put_fs f).
Proof. intros st. exists []. by rewrite app_nil_r. Qed.

Lemma emits_emit (P : event → Prop) (ev : event) : P ev → emits_only P (emit ev).
Proof. intros H st. exists [ev]. split; [reflexivity|]. by constructor. Qed.

Lemma emits_for_ {A} (P : event → Prop) (xs : list A) (body : A → M unit) :
  (∀ x, x ∈ xs → emits_only P (body x)) → emits_only P (for_ xs body).
Proof.
  induction xs as [|x xs IH]; intros Hb; cbn [for_]; [apply emits_ret|].
  apply emits_bind; [apply Hb; left|]. intros _. apply IH.
  intros y Hy. apply Hb. right. exact Hy.
Qed.

Lemma emits_for_return {A R} (P : event → Prop) (xs : list A)
    (body : A → M (option R)) (after : M R) :
  (∀ x, emits_only P (body x)) → emits_only P after →
  emits_only P (for_return xs body after).
Proof.
  intros Hb Ha. induction xs as [|x xs IH]; cbn; [exact Ha|].
  apply emits_bind; [apply Hb|]. intros [r|]; [apply emits_ret|exact IH].
Qed.

Ltac emits_step :=
  lazymatch goal with
  | |- emits_only _ (bind _ _) => apply emits_bind
  | |- emits_only _ (try_except _ _ _) => apply emits_try_except
  | |- emits_only _ (for_return _ _ _) => apply emits_for_return
  | |- emits_only _ (ret _) => apply emits_ret
  | |- emits_only _ (raise _) => apply emits_raise
  | |- emits_only _ (lift _) => apply emits_lift
  | |- emits_only _ get_state => apply emits_get_state
  | |- emits_only _ tick => apply emits_tick
  | |- emits_only _ (put_fs _) => apply emits_put_fs
  | |- emits_only _ (emit _) => apply emits_emit; cbn; repeat split
  | |- emits_only _ (if ?b then _ else _) => destruct b
  | |- emits_only _ (match ?x with _ => _ end) => destruct x
  | |- ∀ _, _ => intro
  end.

Ltac emits_steps := repeat emits_step.

Section EmitsProgram.

Variable w : world.

Lemma handle_line_emits (P : event → Prop) (model_name : string) (l : line) :
  (∀ c t, P (PrintedProgress c t)) → emits_only P (handle_line model_name l).
Proof.
  intros HP. unfold handle_line. emits_steps. apply HP.
Qed.

Lemma pull_emits (model_name : string) :
  emits_only (ollama_event model_name) (pull_model_with_progress w model_name).
Proof.
  unfold pull_model_with_progress. emits_steps.
  apply handle_line_emits. intros c t. exact I.
Qed.

Lemma ensure_emits (model_name : string) :
  emits_only (ollama_event model_name) (ensure_ollama_model_available w model_name).
Proof. unfold ensure_ollama_model_available. emits_steps; apply pull_emits. Qed.

Lemma read_text_emits (P : event → Prop) (dir name : string) :
  emits_only P (read_text dir name).
Proof. unfold read_text. emits_steps. Qed.

Lemma write_text_emits (P : event → Prop) (dir name content : string) :
  P (Stored dir name) → emits_only P (write_text dir name content).
Proof. intros HP. unfold write_text. emits_steps; exact HP. Qed.

Lemma process_entry_emits (P : event → Prop) (model : backend) (filename : string) :
  (∀ C, emits_only P (triage w model C)) →
  (is_md filename = true → P (Stored triaged_dir filename)) →
  emits_only P (process_entry w model filename).
Proof.
  intros Ht HP. unfold process_entry. fold (is_md filename).
  destruct (is_md filename); [|apply emits_ret].
  apply emits_bind; [apply read_text_emits|]. intros C.
  apply emits_bind; [apply Ht|]. intros r.
  apply write_text_emits, HP. reflexivity.
Qed.

Lemma main_emits (P : event → Prop) (model : backend) :
  emits_only P (check_backend w model) →
  (∀ C, emits_only P (triage w model C)) →
  P (MadeDir triaged_dir) →
  (∀ name, is_md name = true → P (Stored triaged_dir name)) →
  emits_only P (main w model).
Proof.
  intros Hc Ht Hm HP. unfold main, prepare, make_triaged_dir, batch_loop, listdir.
  emits_steps; try exact Hc; try exact Hm.
  apply emits_for_. intros name _. apply process_entry_emits; [exact Ht|apply HP].
Qed.

End EmitsProgram.



Lemma glob_star_result (w : world) (dir : string) (st : state) :
  ∃ files,
    glob_star w dir st = (Ok files, st)
    ∧ ∀ name, name ∈ files → hidden name = false.
Proof.
  unfold glob_star. run. destruct (fs st !! dir) as [d|].
  - eexists. split; [reflexivity|]. intros name Hn.
    rewrite list_filter_bool in Hn. apply list_elem_of_filter in Hn as [Hh _].
    unfold hidden. destruct (PyStr.startswith name "."); [discriminate|reflexivity].
  - exists []. split; [reflexivity|]. intros name Hn. apply elem_of_nil in Hn as [].
Qed.

Lemma os_remove_emits (P : event → Prop) (dir name : string) :
  P (Removed dir name) → emits_only P (os_remove dir name).
Proof. intros HP. unfold os_remove. emits_steps; exact HP. Qed.

(** X3. The cleanup does nothing but remove entries of the output
    directory whose name does not start with a dot and print its
    confirmation: it never stores a file, never calls a service and never
    removes anything outside that directory, whatever the directory
    holds. *)
Theorem clean_effects (w : world) :
  emits_only clean_event (clean_triaged_directory w).
Proof.
  intros st. unfold clean_triaged_directory. rewrite bind_run.
  destruct (glob_star_result w triaged_dir st) as (files & -> & Hfiles).
  assert (emits_only clean_event
            (for_ files (os_remove triaged_dir) ;;
             emit (Printed "Cleaned the 'tickets-triaged' directory."))) as H.
  { apply emits_bind.
    - apply emits_for_. intros name Hn. apply os_remove_emits.
      split; [reflexivity|apply Hfiles, Hn].
    - intros _. apply emits_emit. reflexivity. }
  apply H.
Qed.

(** ** What a run may change *)

Lemma os_remove_touches (S : string → string → Prop) (dir name : string) :
  S dir name → touches_only S (os_remove dir name).
Proof.
  intros HS st dir' name' Hn. unfold os_remove. run.
  destruct (fs st !! dir) as [d|] eqn:Hd; [|reflexivity].
  destruct (d !! name) as [[c|reason|]|]; cbn; try reflexivity;
    apply (entry_insert_other (fs st) d dir name dir' name' None Hd);
    intros [-> ->]; exact (Hn HS).
Qed.

Lemma main_confined (w : world) (model : backend) :
  confined (fun name => is_md name = true) (main w model).
Proof.
  unfold main, prepare. apply confined_bind.
  - apply confined_bind; [apply confined_quiet, check_backend_quiet|].
    intros _. apply make_triaged_dir_confined.
  - intros _. unfold batch_loop. apply confined_bind.
    + apply confined_quiet. unfold listdir. quiet_steps.
    + intros names. apply confined_for_. intros name _.
      apply process_entry_confined. auto.
Qed.

(** X4. Whatever happens during a run of [main], completed or aborted,
    every directory other than the output directory [tickets-triaged] is
    afterwards exactly as it was, with all its entries (the input directory
    in particular); the output directory, when it existed, still exists
    (and when it did not, it may have been created); and inside it every
    entry whose name does not end in [.md] is as it was, so that a newly
    created output directory holds nothing but [*.md] entries.  What can
    differ is the existence of the output directory and its entries named
    [*.md], nothing else. *)
Theorem main_changes_ticket_outputs_only (w : world) (model : backend) (st : state) :
  (∀ dir, dir ≠ triaged_dir →
     fs (snd (main w model st)) !! dir = fs st !! dir)
  ∧ (∀ t, fs st !! triaged_dir = Some t →
       ∃ t', fs (snd (main w model st)) !! triaged_dir = Some t'
             ∧ ∀ name, is_md name = false → t' !! name = t !! name)
  ∧ (fs st !! triaged_dir = None →
     ∀ t', fs (snd (main w model st)) !! triaged_dir = Some t' →
           ∀ name, is_md name = false → t' !! name = None).
Proof.
  destruct (main_confined w model st) as (Hdir & Hex & Hin).
  split; [exact Hdir|]. split.
  - intros t Ht. destruct Hex as [t' Ht']; [eauto|]. exists t'.
    split; [exact Ht'|]. intros name Hmd.
    specialize (Hin name). unfold entry in Hin. rewrite Ht', Ht in Hin.
    apply Hin. congruence.
  - intros Ht t' Ht' name Hmd.
    specialize (Hin name). unfold entry in Hin. rewrite Ht', Ht in Hin.
    apply Hin. congruence.
Qed.

Lemma clean_touches (w : world) : touches_only cleanable (clean_triaged_directory w).
Proof.
  intros st. unfold clean_triaged_directory. rewrite bind_run.
  destruct (glob_star_result w triaged_dir st) as (files & -> & Hfiles).
  assert (touches_only cleanable
            (for_ files (os_remove triaged_dir) ;;
             emit (Printed "Cleaned the 'tickets-triaged' directory."))) as H.
  { apply touches_bind.
    - apply touches_for_. intros name Hn. apply os_remove_touches.
      split; [reflexivity|apply Hfiles, Hn].
    - intros _. apply touches_quiet, quiet_emit; reflexivity. }
  apply H.
Qed.

Lemma os_remove_subdir (name : string) (st : state) :
  entry (fs st) triaged_dir name = Some Subdir →
  os_remove triaged_dir name st
  = (Raise (is_a_directory (triaged_dir +:+ "/" +:+ name)), st).
Proof.
  unfold entry, os_remove. run. destruct (fs st !! triaged_dir) as [d|]; [|discriminate].
  cbn. intros ->. reflexivity.
Qed.

Lemma for_os_remove_keeps_subdir (names : list string) (name : string) :
  ∀ st,
    entry (fs st) triaged_dir name = Some Subdir →
    entry (fs (snd (for_ names (os_remove triaged_dir) st))) triaged_dir name
    = Some Subdir.
Proof.
  induction names as [|x names IH]; intros st Hs; [exact Hs|].
  cbn [for_]. rewrite bind_run.
  destruct (decide (x = name)) as [->|Hne].
  - rewrite (os_remove_subdir name st Hs). exact Hs.
  - pose proof (os_remove_touches (fun d n => d = triaged_dir ∧ n = x)
                  triaged_dir x (conj eq_refl eq_refl) st triaged_dir name) as Hkeep.
    destruct (os_remove triaged_dir x st) as [[[]|e] st1]; cbn in Hkeep.
    + apply IH. rewrite Hkeep; [exact Hs|]. intros [_ ->]. contradiction.
    + cbn. rewrite Hkeep; [exact Hs|]. intros [_ ->]. contradiction.
Qed.

(** X5. Whatever the output directory holds and however the cleanup ends,
    it leaves alone every entry outside the output directory, every entry
    whose name starts with a dot, and every subdirectory (which it does not
    enter: [os.remove] refuses it). *)
Theorem clean_leaves_alone (w : world) (st : state) (dir name : string) :
  ¬ cleanable dir name ∨ entry (fs st) dir name = Some Subdir →
  entry (fs (snd (clean_triaged_directory w st))) dir name = entry (fs st) dir name.
Proof.
  intros [Hn|Hs]; [apply clean_touches, Hn|].
  destruct (decide (dir = triaged_dir)) as [->|Hne];
    [|apply clean_touches; intros [H _]; contradiction].
  rewrite Hs. unfold clean_triaged_directory. rewrite bind_run.
  destruct (glob_star_result w triaged_dir st) as (files & -> & _).
  rewrite bind_run.
  pose proof (for_os_remove_keeps_subdir files name st Hs) as Hk.
  destruct (for_ files (os_remove triaged_dir) st) as [[[]|e] st1]; exact Hk.
Qed.

Lemma clean_leaves_alone_witness :
  entry (fs (snd (clean_triaged_directory Examples.steady Examples.dotted_outputs)))
    triaged_dir ".draft.md"
  = entry (fs Examples.dotted_outputs) triaged_dir ".draft.md".
Proof.
  apply (clean_leaves_alone Examples.steady Examples.dotted_outputs
           triaged_dir ".draft.md").
  left. intros [_ H]. discriminate H.
Defined.

(** ** What a piece of code may raise and return *)

Section Outcomes.

Context {A B : Type}.

Lemma raises_ret (Q : exn → Prop) (a : A) : raises_only Q (ret a).
Proof. intros st e H. discriminate H. Qed.

Lemma raises_lift (Q : exn → Prop) (r : result A) :
  (∀ e, r = Raise e → Q e) → raises_only Q (lift r).
Proof. intros H st e He. apply H, He. Qed.

Lemma raises_bind (Q : exn → Prop) (m : M A) (k : A → M B) :
  raises_only Q m → (∀ a, raises_only Q (k a)) → raises_only Q (bind m k).
Proof.
  intros Hm Hk st e. unfold bind. specialize (Hm st).
  destruct (m st) as [[a|e'] st1]; cbn in *.
  - apply Hk.
  - intros [= <-]. apply Hm. reflexivity.
Qed.

Lemma returns_ret (R : A → Prop) (a : A) : R a → returns_only R (ret a).
Proof. intros H st a' [= <-]. exact H. Qed.

Lemma returns_bind (R : B → Prop) (m : M A) (k : A → M B) :
  (∀ a, returns_only R (k a)) → returns_only R (bind m k).
Proof.
  intros Hk st b. unfold bind. destruct (m st) as [[a|e] st1]; cbn.
  - apply Hk.
  - discriminate.
Qed.

End Outcomes.

Lemma raises_emit (Q : exn → Prop) (ev : event) : raises_only Q (emit ev).
Proof. intros st e H. discriminate H. Qed.

Lemma Py_contains_raise (key : string) (v : json) (e : exn) :
  Py.contains key v = Raise e → not_RequestException e.
Proof. destruct v; cbn; intros [= <-]; reflexivity. Qed.

Lemma Py_getitem_raise (v : json) (key : string) (e : exn) :
  Py.getitem v key = Raise e → not_RequestException e.
Proof.
  destruct v; cbn; try (intros [= <-]; reflexivity).
  destruct (Py.assoc key items); intros [= <-]. reflexivity.
Qed.

Lemma Py_lower_raise (v : json) (e : exn) :
  Py.lower v = Raise e → not_RequestException e.
Proof. destruct v; cbn; intros [= <-]; reflexivity. Qed.

Lemma Py_true_divide_raise (c t : json) (e : exn) :
  Py.true_divide c t = Raise e → not_RequestException e.
Proof.
  unfold Py.true_divide. destruct (Py.as_int c), (Py.as_int t);
    try (intros [= <-]; reflexivity).
  destruct (_ =? _)%Z; [intros [= <-]; reflexivity|].
  destruct (Py.float_overflow _ _); intros [= <-]. reflexivity.
Qed.

Ltac raises_step :=
  lazymatch goal with
  | |- raises_only _ (bind _ _) => apply raises_bind
  | |- raises_only _ (ret _) => apply raises_ret
  | |- raises_only _ (emit _) => apply raises_emit
  | |- raises_only _ (lift (Py.contains _ _)) => apply raises_lift, Py_contains_raise
  | |- raises_only _ (lift (Py.getitem _ _)) => apply raises_lift, Py_getitem_raise
  | |- raises_only _ (lift (Py.lower _)) => apply raises_lift, Py_lower_raise
  | |- raises_only _ (lift (Py.true_divide _ _)) => apply raises_lift, Py_true_divide_raise
  | |- raises_only _ (if ?b then _ else _) => destruct b
  | |- ∀ _, _ => intro
  end.

Ltac returns_step :=
  lazymatch goal with
  | |- returns_only _ (bind _ _) => apply returns_bind
  | |- returns_only _ (ret _) => apply returns_ret; auto
  | |- returns_only _ (if ?b then _ else _) => destruct b
  | |- ∀ _, _ => intro
  end.

(** A parsed event never makes the loop body raise a [RequestException],
    and the loop body never asks for [return False]. *)
Lemma handle_parsed_raises (model_name : string) (v : json) :
  raises_only not_RequestException (handle_line model_name (Parsed v)).
Proof. unfold handle_line. repeat raises_step. Qed.

Lemma handle_line_returns (model_name : string) (l : line) :
  returns_only (fun r => r = None ∨ r = Some true) (handle_line model_name l).
Proof.
  destruct l; unfold handle_line; repeat returns_step;
    intros st a H; discriminate H.
Qed.

Lemma handle_line_raises_request (model_name : string) (l : line) (st : state) (e : exn) :
  fst (handle_line model_name l st) = Raise e →
  is_RequestException e = true →
  l = Broken e.
Proof.
  destruct l as [|reason|msg|v|e'].
  - intros H. discriminate H.
  - intros [= <-] H. discriminate H.
  - intros [= <-] H. discriminate H.
  - intros H He. apply handle_parsed_raises in H. unfold not_RequestException in H.
    congruence.
  - intros [= ->] _. reflexivity.
Qed.

(** ** The pull, line by line *)

Section PullLines.

Variable w : world.
Variable model_name : string.

Lemma falls_through_at (l : line) (st : state) :
  fst (handle_line model_name l st) = Ok None → falls_through model_name l.
Proof.
  intros H st'. rewrite <- H. apply handle_line_timeless.
Qed.

Lemma for_return_skips (pre rest : list line) (after : M bool) :
  Forall (falls_through model_name) pre →
  ∀ st, ∃ st1,
    for_return (pre ++ rest) (handle_line model_name) after st
    = for_return rest (handle_line model_name) after st1.
Proof.
  induction 1 as [|l pre Hl _ IH]; intros st; [eauto|].
  cbn. rewrite bind_run. specialize (Hl st).
  destruct (handle_line model_name l st) as [r st1]. cbn in Hl. subst r.
  apply IH.
Qed.

Lemma for_return_stops (pre post : list line) (l : line) (b : bool) (after : M bool) :
  (∀ st, fst (handle_line model_name l st) = Ok (Some b)) →
  ∀ st,
    for_return (pre ++ l :: post) (handle_line model_name) after st
    = for_return (pre ++ [l]) (handle_line model_name) (ret b) st.
Proof.
  intros Hl. induction pre as [|x pre IH]; intros st; cbn; rewrite !bind_run.
  - specialize (Hl st). destruct (handle_line model_name l st) as [r st1].
    cbn in Hl. subst r. reflexivity.
  - destruct (handle_line model_name x st) as [[[v|]|e] st1]; [reflexivity| |reflexivity].
    apply IH.
Qed.

Lemma loop_never_False (lines : list line) :
  ∀ st, fst (for_return lines (handle_line model_name)
         (emit (Printed (PyStr.nl +:+ "Pull process completed.")) ;; ret true) st) ≠ Ok false.
Proof.
  induction lines as [|l lines IH]; intros st; [discriminate|].
  cbn. rewrite bind_run.
  pose proof (handle_line_returns model_name l st) as Hr.
  destruct (handle_line model_name l st) as [[[b|]|e] st1]; cbn in *.
  - destruct (Hr (Some b) eq_refl) as [[=]|[= ->]]. discriminate.
  - apply IH.
  - discriminate.
Qed.

Lemma loop_raises_request (lines : list line) :
  ∀ st e,
    fst (for_return lines (handle_line model_name)
         (emit (Printed (PyStr.nl +:+ "Pull process completed.")) ;; ret true) st) = Raise e →
    is_RequestException e = true →
    ∃ pre post,
      lines = pre ++ Broken e :: post ∧ Forall (falls_through model_name) pre.
Proof.
  induction lines as [|l lines IH]; intros st e; [discriminate|].
  cbn. rewrite bind_run.
  destruct (handle_line model_name l st) as [[[b|]|e'] st1] eqn:Hl; cbn.
  - discriminate.
  - intros H He. destruct (IH st1 e H He) as (pre & post & -> & Hpre).
    exists (l :: pre), post. split; [reflexivity|]. constructor; [|exact Hpre].
    apply (falls_through_at l st). rewrite Hl. reflexivity.
  - intros [= ->] He. exists [], lines. split; [|constructor].
    rewrite (handle_line_raises_request model_name l st e); [reflexivity| |exact He].
    rewrite Hl. reflexivity.
Qed.

Lemma pull_False_failure (st : state) :
  fst (pull_model_with_progress w model_name st) = Ok false →
  pull_failure w model_name st.
Proof.
  rewrite pull_unfold. unfold try_except. rewrite bind_run. unfold lift.
  destruct (requests_post w (clock st) pull_url model_name) as [resp|e] eqn:Hp.
  - destruct (status_code resp =? 200)%Z eqn:Hs; cbn [negb].
    + apply Z.eqb_eq in Hs.
      pose proof (loop_never_False (iter_lines resp) (posted model_name st)) as Hn.
      pose proof (loop_raises_request (iter_lines resp) (posted model_name st)) as Hr.
      destruct (for_return _ _ _ _) as [[b|e] st1]; cbn in *.
      * intros [= ->]. contradiction.
      * destruct (is_RequestException e) eqn:He; [|discriminate]. intros _.
        destruct (Hr e eq_refl He) as (pre & post & Hl & Hpre).
        exact (stream_error w model_name st resp pre post e Hp Hs Hl Hpre He).
    + intros _. apply Z.eqb_neq in Hs.
      exact (bad_status w model_name st resp Hp Hs).
  - destruct (is_RequestException e) eqn:He; [|discriminate]. intros _.
    exact (post_error w model_name st e Hp He).
Qed.

End PullLines.

(** X6. [pull_model_with_progress] returns [False] in exactly three
    situations: the endpoint answered with a status other than 200, the
    request itself raised a [RequestException], or the stream raised one
    after lines that neither announced completion nor raised.  In every
    other case it returns [True] or lets an exception out. *)
Theorem pull_False_iff_failure (w : world) (model_name : string) (st : state) :
  fst (pull_model_with_progress w model_name st) = Ok false
  ↔ pull_failure w model_name st.
Proof. split; [apply pull_False_failure|apply pull_failure_False]. Qed.

(** X7. The first status event that announces completion ends the pull:
    when every line before it fell through, the function returns [True]
    there, whatever the lines after it are (they are never read, so not even
    a broken or malformed one matters), and all it has emitted is the
    request and progress output, not the closing message.  The keyword is
    looked for anywhere in the lower-cased status text. *)
Theorem pull_stops_at_completion_event
    (w : world) (model_name : string) (st : state) (resp : response)
    (pre post : list line) (kvs : list (string * json)) (s : string) :
  requests_post w (clock st) pull_url model_name = Ok resp →
  status_code resp = 200%Z →
  iter_lines resp = pre ++ Parsed (JObj kvs) :: post →
  Forall (falls_through model_name) pre →
  Py.assoc "status" kvs = Some (JStr s) →
  PyStr.contains "success" (PyStr.lower s) || PyStr.contains "finished" (PyStr.lower s)
  = true →
  fst (pull_model_with_progress w model_name st) = Ok true
  ∧ ∃ evs,
      trace (snd (pull_model_with_progress w model_name st)) = trace st ++ evs
      ∧ Forall pull_progress evs.
Proof.
  intros Hp Hs Hl Hpre Hk Hc.
  assert (∀ st', fst (handle_line model_name (Parsed (JObj kvs)) st') = Ok (Some true))
    as Hdone.
  { intros st'. rewrite (handle_line_terminal model_name kvs s st' Hk Hc). reflexivity. }
  rewrite pull_unfold. unfold try_except. rewrite bind_run. unfold lift.
  rewrite Hp, Hs, Z.eqb_refl. cbn [negb]. rewrite Hl.
  rewrite (for_return_stops model_name pre post (Parsed (JObj kvs)) true _ Hdone).
  assert (emits_only pull_progress
            (for_return (pre ++ [Parsed (JObj kvs)]) (handle_line model_name) (ret true)))
    as Hem.
  { apply emits_for_return; [|apply emits_ret]. intros l.
    apply handle_line_emits. intros c t. exact I. }
  destruct (Hem (posted model_name st)) as (evs & Htr & Hev).
  destruct (for_return_skips model_name pre [Parsed (JObj kvs)] (ret true) Hpre
              (posted model_name st)) as [st1 Heq].
  rewrite Heq in *. cbn [for_return] in *. rewrite bind_run in *.
  specialize (Hdone st1).
  destruct (handle_line model_name (Parsed (JObj kvs)) st1) as [r st2].
  cbn in Hdone. subst r. cbn in *. split; [reflexivity|].
  exists (Posted pull_url model_name :: evs). split.
  - rewrite Htr. rewrite <- app_assoc. reflexivity.
  - constructor; [exact I|exact Hev].
Qed.

Lemma pull_stops_at_completion_event_witness :
  fst (pull_model_with_progress
         (Examples.pulling
            (Response 200 ""
               [ Parsed (JObj [("status", JStr "pulling manifest")]);
                 Parsed (JObj [("status", JStr "Unsuccessful")]);
                 Malformed "Expecting value: line 1 column 1 (char 0)" ]))
         "gemma3:12b" Examples.empty_state) = Ok true
  ∧ ∃ evs,
      trace (snd (pull_model_with_progress
                    (Examples.pulling
                       (Response 200 ""
                          [ Parsed (JObj [("status", JStr "pulling manifest")]);
                            Parsed (JObj [("status", JStr "Unsuccessful")]);
                            Malformed "Expecting value: line 1 column 1 (char 0)" ]))
                    "gemma3:12b" Examples.empty_state))
      = trace Examples.empty_state ++ evs
      ∧ Forall pull_progress evs.
Proof.
  apply (pull_stops_at_completion_event _ "gemma3:12b" Examples.empty_state
           (Response 200 ""
              [ Parsed (JObj [("status", JStr "pulling manifest")]);
                Parsed (JObj [("status", JStr "Unsuccessful")]);
                Malformed "Expecting value: line 1 column 1 (char 0)" ])
           [ Parsed (JObj [("status", JStr "pulling manifest")]) ]
           [ Malformed "Expecting value: line 1 column 1 (char 0)" ]
           [("status", JStr "Unsuccessful")] "Unsuccessful").
  - reflexivity.
  - reflexivity.
  - reflexivity.
  - repeat constructor; intros st; reflexivity.
  - reflexivity.
  - reflexivity.
Defined.

(** ** The batch loop, ticket by ticket *)

Section Tickets.

Variable w : world.
Variable model : backend.

(** The one request that triaging a ticket sends. *)
Lemma triage_calls (C : string) (st : state) :
  ready w model →
  client_available w model →
  trace (snd (triage w model C st)) = trace st ++ [inference_call w model C].
Proof.
  intros Hready Hclient. destruct model; unfold triage, inference_call.
  - destruct Hready as [[=]|Ht].
    destruct (os_getenv w "OLLAMA_MODEL") as [m|] eqn:Henv; [|discriminate].
    apply (triage_ticket_ollama_sends w C m st Henv Ht).
  - apply triage_ticket_gemini_sends, Hclient. reflexivity.
Qed.

Lemma ticket_texts_cons_md (d : gmap string node) (name C : string) (names : list string) :
  is_md name = true → d !! name = Some (File C) →
  ticket_texts d (name :: names) = C :: ticket_texts d names.
Proof.
  intros Hmd HC. unfold ticket_texts, md_names.
  rewrite filter_cons_True by exact Hmd. cbn [omap list_omap]. rewrite HC. reflexivity.
Qed.

Lemma ticket_texts_cons_other (d : gmap string node) (name : string) (names : list string) :
  is_md name = false → ticket_texts d (name :: names) = ticket_texts d names.
Proof.
  intros Hmd. unfold ticket_texts, md_names.
  rewrite filter_cons_False by congruence. reflexivity.
Qed.

(** The loop over a list of names whose tickets are regular files: it
    completes, stores the tickets in order, and sends one request per
    ticket, in order. *)
Lemma for_process_entries_trace (names : list string) :
  ∀ (st : state) (d t : gmap string node),
    ready w model →
    fs st !! original_dir = Some d →
    fs st !! triaged_dir = Some t →
    (∀ name, name ∈ names → is_md name = true → ∃ C, d !! name = Some (File C)) →
    (∀ name, name ∈ names → is_md name = true → t !! name ≠ Some Subdir) →
    ∃ st' evs,
      for_ names (process_entry w model) st = (Ok tt, st')
      ∧ fs st' !! original_dir = Some d
      ∧ is_Some (fs st' !! triaged_dir)
      ∧ trace st' = trace st ++ evs
      ∧ stored evs = (fun name => (triaged_dir, name)) <$> md_names names
      ∧ (client_available w model →
         inference_calls evs = inference_call w model <$> ticket_texts d names).
Proof.
  induction names as [|name names IH]; intros st d t Hready Hd Ht Hin Hout.
  - exists st, []. cbn. rewrite app_nil_r. repeat split; eauto.
  - cbn [for_]. rewrite bind_run. destruct (is_md name) eqn:Hmd.
    + destruct (Hin name) as [C HC]; [left|exact Hmd|].
      assert (t !! name ≠ Some Subdir) as Hw by (apply Hout; [left|exact Hmd]).
      destruct (process_entry_md w model name C d t st Hmd Hready Hd Ht HC Hw)
        as (r & st1 & Htri & ->).
      destruct (triage_quiet w model C st) as (_ & evs_t & Htr & Hst & _).
      pose proof (triage_calls C st Hready) as Hcall.
      rewrite Htri in Htr, Hcall. cbn in Htr, Hcall.
      set (t1 := <[name := File (triaged_document C r)]> t).
      set (st1' := State (<[triaged_dir := t1]> (fs st)) (clock st1)
                     (trace st1 ++ [Stored triaged_dir name])).
      destruct (IH st1' d t1) as (st' & evs & Hrun & Hd' & Ht' & Htrace & Hstored & Hcalls).
      * exact Hready.
      * cbn. rewrite lookup_insert_ne; [exact Hd|]. intros H. symmetry in H.
        exact (dirs_differ H).
      * cbn. apply lookup_insert_eq.
      * intros n Hn. apply Hin. right. exact Hn.
      * intros n Hn Hm. unfold t1. destruct (decide (name = n)) as [->|Hne].
        -- rewrite lookup_insert_eq. discriminate.
        -- rewrite lookup_insert_ne by exact Hne. apply Hout; [right|]; assumption.
      * exists st', (evs_t ++ [Stored triaged_dir name] ++ evs).
        assert (md_names (name :: names) = name :: md_names names) as Hmds.
        { unfold md_names. rewrite filter_cons_True; [reflexivity|exact Hmd]. }
        rewrite Hmds, (ticket_texts_cons_md d name C names Hmd HC).
        split; [exact Hrun|]. split; [exact Hd'|]. split; [exact Ht'|]. split.
        { rewrite Htrace. cbn. rewrite Htr. rewrite <- !app_assoc. reflexivity. }
        split.
        { unfold stored in *. rewrite !omap_app, Hst, Hstored. reflexivity. }
        intros Hclient. specialize (Hcall Hclient). rewrite Htr in Hcall.
        apply app_inv_head in Hcall. subst evs_t.
        unfold inference_calls in *. rewrite !omap_app, (Hcalls Hclient).
        destruct model; reflexivity.
    + rewrite (process_entry_skip w model name st Hmd).
      destruct (IH st d t Hready Hd Ht) as (st' & evs & H).
      { intros n Hn. apply Hin. right. exact Hn. }
      { intros n Hn. apply Hout. right. exact Hn. }
      assert (md_names (name :: names) = md_names names) as ->.
      { unfold md_names. rewrite filter_cons_False; [reflexivity|]. congruence. }
      rewrite (ticket_texts_cons_other d name names Hmd).
      exists st', evs. exact H.
Qed.

End Tickets.

Lemma ticket_texts_length (d : gmap string node) (names : list string) :
  (∀ name, name ∈ names → is_md name = true → ∃ C, d !! name = Some (File C)) →
  length (ticket_texts d names) = length (md_names names).
Proof.
  induction names as [|name names IH]; intros H; [reflexivity|].
  assert (length (ticket_texts d names) = length (md_names names)) as IH'.
  { apply IH. intros n Hn. apply H. right. exact Hn. }
  destruct (is_md name) eqn:Hmd.
  - destruct (H name) as [C HC]; [left|exact Hmd|].
    rewrite (ticket_texts_cons_md d name C names Hmd HC). unfold md_names.
    rewrite filter_cons_True by exact Hmd. cbn. f_equal. exact IH'.
  - rewrite (ticket_texts_cons_other d name names Hmd). unfold md_names.
    rewrite filter_cons_False by congruence. exact IH'.
Qed.



(** X9. The loop does not check that an entry named [*.md] is a file.  When
    the listing reaches a subdirectory so named, after tickets that were
    regular files, reading it raises [IsADirectoryError] and the run ends
    there: the tickets listed before it have been stored and stay stored,
    the ones listed after it are not processed. *)
Theorem batch_loop_stops_at_directory
    (w : world) (model : backend) (st : state) (d t : gmap string node)
    (pre post : list string) (name : string) :
  ready w model →
  fs st !! original_dir = Some d →
  fs st !! triaged_dir = Some t →
  os_listdir w d = pre ++ name :: post →
  is_md name = true →
  d !! name = Some Subdir →
  (∀ n, n ∈ pre → is_md n = true → ∃ C, d !! n = Some (File C)) →
  (∀ n, n ∈ pre → is_md n = true → t !! n ≠ Some Subdir) →
  ∃ st' evs,
    batch_loop w model st
    = (Raise (is_a_directory (original_dir +:+ "/" +:+ name)), st')
    ∧ trace st' = trace st ++ evs
    ∧ stored evs = (fun n => (triaged_dir, n)) <$> md_names pre.
Proof.
  intros Hready Hd Ht Hl Hmd Hsub Hin Hout.
  rewrite (batch_loop_unfold w model d st Hd), Hl, for_app, bind_run.
  destruct (for_process_entries_trace w model pre st d t)
    as (st' & evs & -> & Hd' & _ & Htr & Hst & _); try assumption.
  exists st', evs. split; [|split; assumption].
  cbn [for_]. rewrite bind_run. unfold process_entry. unfold is_md in Hmd.
  rewrite Hmd. unfold read_text. run. rewrite Hd', Hsub. reflexivity.
Qed.

Lemma batch_loop_stops_at_directory_witness :
  ∃ st' evs,
    batch_loop Cases.alphabetical gemini Cases.mixed_inbox
    = (Raise (is_a_directory (original_dir +:+ "/" +:+ "archive.md")), st')
    ∧ trace st' = trace Cases.mixed_inbox ++ evs
    ∧ stored evs = (fun n => (triaged_dir, n)) <$> md_names ["a.md"].
Proof.
  apply (batch_loop_stops_at_directory Cases.alphabetical gemini Cases.mixed_inbox
           Cases.mixed_tickets ∅ ["a.md"] ["z.md"] "archive.md").
  - left. reflexivity.
  - reflexivity.
  - reflexivity.
  - reflexivity.
  - reflexivity.
  - reflexivity.
  - intros n Hn _. apply list_elem_of_singleton in Hn as ->. eexists. reflexivity.
  - intros n _ _. rewrite lookup_empty. discriminate.
Defined.

(** X10. Entries whose name does not end in [.md] are skipped without
    being opened: over a directory that holds no ticket (an empty one in
    particular) the loop completes and leaves the state exactly as it was,
    with no request sent, whatever the backend and its configuration. *)
Theorem batch_loop_without_tickets
    (w : world) (model : backend) (st : state) (d : gmap string node) :
  fs st !! original_dir = Some d →
  Forall (fun name => is_md name = false) (os_listdir w d) →
  batch_loop w model st = (Ok tt, st).
Proof.
  intros Hd Hnone. rewrite (batch_loop_unfold w model d st Hd).
  induction Hnone as [|name names Hmd _ IH]; [reflexivity|].
  cbn [for_]. rewrite bind_run, (process_entry_skip w model name st Hmd). exact IH.
Qed.

Lemma batch_loop_without_tickets_witness :
  batch_loop Examples.unconfigured ollama Cases.no_tickets = (Ok tt, Cases.no_tickets).
Proof.
  apply (batch_loop_without_tickets Examples.unconfigured ollama Cases.no_tickets
           {[ "notes.txt" := File "not a ticket"; "README" := File "read me" ]}).
  - reflexivity.
  - vm_compute. repeat constructor.
Defined.

(** ** The whole run *)

(** X11. The output directory is created before the input directory is
    looked at: when the input directory is missing and the preparation
    succeeds, the run ends with [FileNotFoundError] for [tickets-original],
    and the output directory exists afterwards, empty if it was not there
    before. *)
Theorem main_without_input_directory
    (w : world) (model : backend) (st st0 : state) :
  fs st !! original_dir = None →
  prepare w model st = (Ok tt, st0) →
  main w model st = (Raise (no_such_file original_dir), st0)
  ∧ fs st0 !! triaged_dir = Some (default ∅ (fs st !! triaged_dir)).
Proof.
  intros Hd Hprep. destruct (prepare_ok w model st st0 Hprep) as [_ Hfs].
  split.
  - unfold main. rewrite bind_run, Hprep. unfold batch_loop, listdir. run.
    rewrite Hfs. destruct (fs st !! triaged_dir).
    + rewrite Hd. reflexivity.
    + rewrite lookup_insert_ne, Hd; [reflexivity|]. intros H. symmetry in H.
      exact (dirs_differ H).
  - rewrite Hfs. destruct (fs st !! triaged_dir) eqn:Ht; [exact Ht|].
    apply lookup_insert_eq.
Qed.

Lemma main_without_input_directory_witness :
  main Examples.steady gemini Examples.empty_state
  = (Raise (no_such_file original_dir),
     State {[ triaged_dir := ∅ ]} 0 [MadeDir triaged_dir])
  ∧ fs (State {[ triaged_dir := ∅ ]} 0 [MadeDir triaged_dir]) !! triaged_dir
    = Some (default ∅ (fs Examples.empty_state !! triaged_dir)).
Proof.
  apply (main_without_input_directory Examples.steady gemini Examples.empty_state).
  - reflexivity.
  - reflexivity.
Defined.

Lemma check_backend_emits (w : world) (model : backend) :
  emits_only check_event (check_backend w model).
Proof.
  unfold check_backend, ensure_ollama_model_available, pull_model_with_progress.
  destruct model; [|apply emits_ret].
  destruct (negb _); [apply emits_raise|]. emits_steps.
  apply handle_line_emits. intros c t. exact I.
Qed.

Lemma check_events_no_calls (evs : list event) :
  Forall check_event evs → stored evs = [] ∧ inference_calls evs = [].
Proof.
  induction 1 as [|ev evs Hev _ [IH1 IH2]]; [split; reflexivity|].
  unfold stored, inference_calls in *.
  destruct ev; cbn in Hev |- *; try contradiction; split; assumption.
Qed.

(** X12. When the check of the local backend fails, for whatever reason
    (model not configured, listing raised, pull let an exception out), the
    run ends with that exception before anything else happens: the file
    system is exactly as it was (not even the output directory is created),
    nothing was stored and no inference request was sent. *)
Theorem main_aborts_when_check_fails
    (w : world) (model : backend) (st st' : state) (e : exn) :
  check_backend w model st = (Raise e, st') →
  main w model st = (Raise e, st')
  ∧ fs st' = fs st
  ∧ ∃ evs, trace st' = trace st ++ evs
           ∧ stored evs = [] ∧ inference_calls evs = [].
Proof.
  intros Hc. split; [|split].
  - unfold main, prepare. rewrite !bind_run, Hc. reflexivity.
  - destruct (check_backend_quiet w model st) as [Hfs _]. rewrite Hc in Hfs. exact Hfs.
  - destruct (check_backend_emits w model st) as (evs & Htr & Hev).
    rewrite Hc in Htr. exists evs. split; [exact Htr|].
    apply check_events_no_calls, Hev.
Qed.

Lemma main_aborts_when_check_fails_witness :
  main (Examples.pulling Examples.garbled) ollama Examples.inbox
  = (Raise (Exn JSONDecodeError "Expecting value: line 1 column 1 (char 0)"),
     State (fs Examples.inbox) 2 [Listed; Posted pull_url "gemma3:12b"])
  ∧ fs (State (fs Examples.inbox) 2 [Listed; Posted pull_url "gemma3:12b"])
    = fs Examples.inbox
  ∧ ∃ evs,
      trace (State (fs Examples.inbox) 2 [Listed; Posted pull_url "gemma3:12b"])
      = trace Examples.inbox ++ evs
      ∧ stored evs = [] ∧ inference_calls evs = [].
Proof.
  apply (main_aborts_when_check_fails (Examples.pulling Examples.garbled) ollama
           Examples.inbox).
  reflexivity.
Defined.



(** ** Services that answer the same at all times *)

Lemma report_of_stationary (w : world) (model : backend) (C r : string)
    (st st' : state) :
  stationary_backends w →
  triage w model C st = (Ok r, st') →
  report_of w model C = r.
Proof.
  intros Hstat Htri. unfold report_of.
  rewrite <- (triage_stationary w model C st (State ∅ 0 []) Hstat), Htri.
  reflexivity.
Qed.

Lemma batch_loop_final_stationary
    (w : world) (model : backend) (st : state) (d t : gmap string node) :
  stationary_backends w →
  ready w model →
  fs st !! original_dir = Some d →
  fs st !! triaged_dir = Some t →
  listdir_sound w d →
  md_entries_readable d →
  outputs_writable d t →
  ∃ st' t',
    batch_loop w model st = (Ok tt, st')
    ∧ fs st' = <[triaged_dir := t']> (fs st)
    ∧ ∀ name, t' !! name = triaged_entry w model d t name.
Proof.
  intros Hstat Hready Hd Ht Hl Hfiles Hout.
  destruct (for_process_entries w model (os_listdir w d) st d t)
    as (st' & t' & evs & Hrun & Hfs & _ & _ & Hsame & Hnew); try assumption.
  { intros name Hn Hmd. apply (listdir_names w d name Hl) in Hn as [e He].
    destruct (Hfiles name e Hmd He) as [C ->]. eauto. }
  { intros name Hn Hmd. apply Hout; [exact Hmd|].
    apply (listdir_names w d name Hl), Hn. }
  exists st', t'. rewrite (batch_loop_unfold w model d st Hd).
  split; [exact Hrun|]. split; [exact Hfs|]. intros name. unfold triaged_entry.
  destruct (decide (name ∈ md_names (os_listdir w d))) as [Hin|Hnin].
  - destruct (Hnew name Hin) as (C & r & st_a & st_b & -> & Htri & _ & _ & ->).
    apply elem_of_md_names in Hin as [-> _].
    rewrite (report_of_stationary w model C r st_a st_b Hstat Htri). reflexivity.
  - rewrite (Hsame name Hnin).
    destruct (d !! name) as [[C|reason|]|] eqn:Hn; try reflexivity.
    destruct (is_md name) eqn:Hmd; [|reflexivity].
    exfalso. apply Hnin, elem_of_md_names. split; [exact Hmd|].
    apply (listdir_names w d name Hl). eauto.
Qed.





(** ** The adapters and their prompt *)

(** X16. The remote adapter never raises and never returns an empty
    report.  What it returns is decided by the two calls it makes: when the
    construction of the client raised [e], or the client was built and the
    request raised [e], the contained error text for [e]; when the request
    answered without a text, or with an empty one, the empty-response
    sentinel; when it answered with a non-empty text, that text. *)
Theorem triage_ticket_gemini_never_empty (w : world) (T : string) (st : state) :
  ∃ report,
    fst (triage_ticket_gemini w T st) = Ok report
    ∧ report ≠ ""
    ∧ report
      = match genai_Client w (clock st) with
        | Raise e => "Error during Gemini triage: " +:+ exn_str e
        | Ok _ =>
            match generate_content w (clock st) "gemini-2.5-flash" (gemini_prompt T) with
            | Raise e => "Error during Gemini triage: " +:+ exn_str e
            | Ok None | Ok (Some "") => "Error: Empty response from Gemini."
            | Ok (Some text) => text
            end
        end.
Proof.
  unfold triage_ticket_gemini. run.
  destruct (genai_Client w (clock st)); run;
    [|eexists; split; [reflexivity|split; [discriminate|reflexivity]]].
  destruct (generate_content w (clock st) _ _) as [[[|c s]|]|e]; run;
    eexists; (split; [reflexivity|split; [discriminate|reflexivity]]).
Qed.

Lemma length_append (s t : string) :
  String.length (s +:+ t) = (String.length s + String.length t)%nat.
Proof.
  induction s as [|c s IH]; [reflexivity|].
  change (S (String.length (s +:+ t)) = S (String.length s + String.length t)).
  f_equal. exact IH.
Qed.

Lemma append_inj_l (p s t : string) : p +:+ s = p +:+ t → s = t.
Proof.
  induction p as [|c p IH]; [auto|].
  change (String c (p +:+ s) = String c (p +:+ t) → s = t).
  intros [= H]. auto.
Qed.

Lemma append_inj_r (q : string) : ∀ s t, s +:+ q = t +:+ q → s = t.
Proof.
  induction s as [|c s IH]; intros [|c' t] H.
  - reflexivity.
  - apply (f_equal String.length) in H. rewrite !length_append in H.
    cbn in H. lia.
  - apply (f_equal String.length) in H. rewrite !length_append in H.
    cbn in H. lia.
  - change (String c (s +:+ q) = String c' (t +:+ q)) in H.
    injection H as -> H. f_equal. apply IH, H.
Qed.

(** X17. The ticket text can be read back from the prompt: two ticket
    texts that render to the same prompt are the same text, for either
    adapter. *)
Theorem prompt_injective (T1 T2 : string) :
  ollama_prompt T1 = ollama_prompt T2 ∨ gemini_prompt T1 = gemini_prompt T2 →
  T1 = T2.
Proof.
  intros H.
  assert (ollama_prompt T1 = ollama_prompt T2) as H' by (destruct H as [H|H]; exact H).
  clear H.
  change (String.substring 0 777 (ollama_prompt "")
          +:+ (T1 +:+ String.substring 777 71 (ollama_prompt ""))
          = String.substring 0 777 (ollama_prompt "")
            +:+ (T2 +:+ String.substring 777 71 (ollama_prompt ""))) in H'.
  apply append_inj_l, append_inj_r in H'. exact H'.
Qed.

Lemma prompt_injective_witness : "My printer is on fire." = "My printer is on fire.".
Proof.
  apply (prompt_injective "My printer is on fire." "My printer is on fire.").
  left. reflexivity.
Defined.

(** ** The cleanup, again *)

(** X18. Over an output directory that holds regular files only, the
    cleanup completes; it removes each file whose name does not start with
    a dot exactly once and nothing else; the directory is still there and
    holds exactly the dotted files; the last thing it does is print its
    confirmation. *)
Theorem clean_removes_undotted_files
    (w : world) (st : state) (t : gmap string node) :
  fs st !! triaged_dir = Some t →
  listdir_sound w t →
  map_Forall (fun _ e => is_file e = true) t →
  ∃ st' t' evs,
    clean_triaged_directory w st = (Ok tt, st')
    ∧ fs st' = <[triaged_dir := t']> (fs st)
    ∧ (∀ name, t' !! name = if hidden name then t !! name else None)
    ∧ trace st' = trace st ++ evs
    ∧ removed evs
      ≡ₚ (fun name => (triaged_dir, name))
         <$> filter (fun name => hidden name = false) (elements (dom t))
    ∧ last evs = Some (Printed "Cleaned the 'tickets-triaged' directory.").
Proof.
  intros Ht Hl Hfiles.
  set (names := List.filter (fun name => negb (PyStr.startswith name ".")) (os_listdir w t)).
  assert (names = filter (fun name => hidden name = false) (os_listdir w t)) as Hn.
  { unfold names. rewrite list_filter_bool. apply list_filter_iff. intros name.
    unfold hidden. destruct (PyStr.startswith name "."); cbn; split; congruence. }
  assert (∀ name, name ∈ names ↔ hidden name = false ∧ is_Some (t !! name)) as Hnames.
  { intros name. rewrite Hn, list_elem_of_filter, (listdir_names w t name Hl).
    reflexivity. }
  destruct (for_os_remove names st t) as (st' & t' & Hrun & Hfs & Htr & Hgone & Hkept).
  { rewrite Hn. apply NoDup_filter. unfold listdir_sound in Hl. rewrite Hl.
    apply NoDup_elements. }
  { exact Ht. }
  { intros name Hin. apply Hnames in Hin as [_ [e He]].
    exists e. split; [exact He|exact (Hfiles name e He)]. }
  exists (State (fs st') (clock st')
            (trace st' ++ [Printed "Cleaned the 'tickets-triaged' directory."])),
         t',
         ((Removed triaged_dir <$> names)
          ++ [Printed "Cleaned the 'tickets-triaged' directory."]).
  split.
  { unfold clean_triaged_directory, glob_star. run. rewrite Ht. fold names.
    rewrite Hrun. reflexivity. }
  split; [exact Hfs|]. split.
  { intros name. destruct (hidden name) eqn:Hh.
    - apply Hkept. rewrite Hnames. intros [H _]. congruence.
    - destruct (t !! name) as [e|] eqn:He.
      + apply Hgone, Hnames. eauto.
      + rewrite Hkept; [exact He|]. rewrite Hnames. intros [_ [e He']]. congruence. }
  split; [cbn; rewrite Htr, <- app_assoc; reflexivity|]. split; [|apply last_snoc].
  unfold removed. rewrite omap_app. cbn [omap list_omap]. rewrite app_nil_r.
  assert (omap (fun ev => match ev with
                          | Removed dir name => Some (dir, name)
                          | _ => None
                          end) (Removed triaged_dir <$> names)
          = (fun name => (triaged_dir, name)) <$> names) as ->.
  { clear. induction names as [|x xs IH]; [reflexivity|]. cbn. f_equal. exact IH. }
  rewrite Hn. unfold listdir_sound in Hl. rewrite Hl. reflexivity.
Qed.

Lemma clean_removes_undotted_files_witness :
  ∃ st' t' evs,
    clean_triaged_directory Examples.steady Examples.dotted_outputs = (Ok tt, st')
    ∧ fs st' = <[triaged_dir := t']> (fs Examples.dotted_outputs)
    ∧ (∀ name,
         t' !! name
         = if hidden name
           then ({[ "printer.md" := File "triaged"; ".draft.md" := File "triaged too" ]}
                 : gmap string node) !! name
           else None)
    ∧ trace st' = trace Examples.dotted_outputs ++ evs
    ∧ removed evs
      ≡ₚ (fun name => (triaged_dir, name))
         <$> filter (fun name => hidden name = false)
               (elements (dom ({[ "printer.md" := File "triaged";
                                  ".draft.md" := File "triaged too" ]}
                               : gmap string node)))
    ∧ last evs = Some (Printed "Cleaned the 'tickets-triaged' directory.").
Proof.
  apply (clean_removes_undotted_files Examples.steady Examples.dotted_outputs).
  - reflexivity.
  - unfold listdir_sound. reflexivity.
  - only_files.
Defined.

(** X19. Cleaning twice is cleaning once: over such a directory, and with
    listings that name every entry once, a second cleanup completes and
    changes no file. *)
Theorem clean_twice (w : world) (st : state) (t : gmap string node) :
  fs st !! triaged_dir = Some t →
  (∀ d, listdir_sound w d) →
  map_Forall (fun _ e => is_file e = true) t →
  ∃ st1 st2,
    clean_triaged_directory w st = (Ok tt, st1)
    ∧ clean_triaged_directory w st1 = (Ok tt, st2)
    ∧ fs st2 = fs st1.
Proof.
  intros Ht Hl Hfiles.
  destruct (clean_triaged_directory_files w st t Ht (Hl t) Hfiles)
    as (st1 & t1 & Hrun1 & Hfs1 & Ht1 & _).
  assert (fs st1 !! triaged_dir = Some t1) as Ht1'
    by (rewrite Hfs1; apply lookup_insert_eq).
  destruct (clean_triaged_directory_files w st1 t1 Ht1' (Hl t1))
    as (st2 & t2 & Hrun2 & Hfs2 & Ht2 & _).
  { intros name e He. rewrite Ht1 in He. destruct (hidden name); [|discriminate].
    exact (Hfiles name e He). }
  exists st1, st2. split; [exact Hrun1|]. split; [exact Hrun2|].
  assert (t2 = t1) as ->.
  { apply map_eq. intros name. rewrite Ht2, Ht1. destruct (hidden name); reflexivity. }
  rewrite Hfs2. apply insert_id, Ht1'.
Qed.

Lemma clean_twice_witness :
  ∃ st1 st2,
    clean_triaged_directory Examples.steady Examples.dotted_outputs = (Ok tt, st1)
    ∧ clean_triaged_directory Examples.steady st1 = (Ok tt, st2)
    ∧ fs st2 = fs st1.
Proof.
  apply (clean_twice Examples.steady Examples.dotted_outputs
           {[ "printer.md" := File "triaged"; ".draft.md" := File "triaged too" ]}).
  - reflexivity.
  - intros d. unfold listdir_sound. reflexivity.
  - only_files.
Defined.

(** ** Lines that make the pull raise *)

Lemma bad_line_raises (model_name : string) (l : line) (e : exn) (st : state) :
  bad_line l e →
  fst (handle_line model_name l st) = Raise e ∧ is_RequestException e = false.
Proof.
  intros [reason | msg | kvs v Hv Hns | kvs total completed c Hq Ht Hc Hti Hci].
  - split; reflexivity.
  - split; reflexivity.
  - split; [|reflexivity]. unfold handle_line. run. cbn [Py.contains Py.getitem].
    rewrite existsb_assoc, Hv.
    destruct v; try reflexivity. destruct (Hns s eq_refl).
  - split; [|reflexivity]. unfold handle_line. run. cbn [Py.contains Py.getitem].
    rewrite !existsb_assoc, Ht, Hc. unfold quiet_status in Hq.
    unfold Py.true_divide. rewrite Hti, Hci.
    destruct (Py.assoc "status" kvs) as [[| | |s| |]|]; try contradiction;
      cbn [Py.lower]; rewrite ?Hq; reflexivity.
Qed.



(** X21. The availability check raises exactly what the listing or the
    pull raises, and nothing else: it raises [e] if and only if the listing
    raised [e], or the model is not listed and the pull let [e] out.  A pull
    that merely returns [False] is therefore never an error of the check. *)
Theorem ensure_raises_iff
    (w : world) (model_name : string) (st : state) (e : exn) :
  fst (ensure_ollama_model_available w model_name st) = Raise e
  ↔ ollama_list w (clock st) = Raise e
    ∨ ∃ models,
        ollama_list w (clock st) = Ok models
        ∧ known_locally model_name models = false
        ∧ fst (pull_model_with_progress w model_name (listed st)) = Raise e.
Proof.
  destruct (ollama_list w (clock st)) as [models|e'] eqn:Hlist.
  - destruct (known_locally model_name models) eqn:Hk.
    + rewrite (ensure_known w model_name st models Hlist Hk). split.
      * discriminate.
      * intros [[=]|(models' & [= <-] & Hk' & _)]. congruence.
    + rewrite (ensure_pulls w model_name st models Hlist Hk).
      destruct (pull_model_with_progress w model_name (listed st)) as [[b|e''] st'];
        cbn; split.
      * discriminate.
      * intros [[=]|(models' & _ & _ & [=])].
      * intros [= ->]. right. exists models. auto.
      * intros [[=]|(models' & _ & _ & H)]. congruence.
  - rewrite (ensure_listing_raises w model_name st e' Hlist). cbn. split.
    + intros [= ->]. left. reflexivity.
    + intros [[= ->]|(models' & [=] & _)]. reflexivity.
Qed.
